(** * Permission-scoped SQL filters: pkg/services/accesscontrol/filter.go

    A shallow embedding of [Filter], [ParseScopes] and [UserRolesFilter]
    and the properties of the filters they build.

    Conventions of the embedding.
    - A Go [string] is a Rocq [string] (a sequence of bytes).
    - A Go [interface{}] that holds an [int64] or a [string] is the
      tagged type [iface].
    - A Go [map[K]V] is a [gmap K V] and a [map[K]struct{}] a [gset K];
      where the code tests a map against [nil], the map is an [option].
    - A Go [error] is [option string]: [None] is [nil], [Some msg] is
      [errors.New(msg)].
    - Counters ([wildcards], the tallies in [result], [len]) are [nat]:
      each is bounded by [len(actions)], so the 64-bit [int] of the
      source never wraps. *)

From Stdlib Require Import ZArith Ascii String.
From stdpp Require Import gmap strings list fin_maps fin_sets.

(** ** Go strings *)

Module GoStrings.

Local Open Scope Z_scope.

(** One double-quote character, for the literals that contain it. *)
Definition dquote : string := String "034"%char EmptyString.
Definition newline : string := String "010"%char EmptyString.
Definition tab : string := String "009"%char EmptyString.

(** [strings.HasPrefix(s, prefix)] *)
Fixpoint HasPrefix (s prefix : string) : bool :=
  match prefix, s with
  | EmptyString, _ => true
  | String _ _, EmptyString => false
  | String p prefix', String c s' => Ascii.eqb c p && HasPrefix s' prefix'
  end.

(** [s[i:]] for [0 <= i <= len(s)] *)
Definition slice_from (s : string) (i : Z) : string :=
  String.substring (Z.to_nat i) (String.length s - Z.to_nat i)%nat s.

(** [strings.HasSuffix(s, suffix)]:
    [len(s) >= len(suffix) && s[len(s)-len(suffix):] == suffix] *)
Definition HasSuffix (s suffix : string) : bool :=
  (String.length suffix <=? String.length s)%nat
  && String.eqb
       (slice_from s (Z.of_nat (String.length s) - Z.of_nat (String.length suffix)))
       suffix.

(** [strings.LastIndex(s, sep)] for a one-byte separator: the index of
    the last occurrence of [sep] in [s], or [-1]. *)
Fixpoint LastIndex_from (s : string) (sep : ascii) (pos found : Z) : Z :=
  match s with
  | EmptyString => found
  | String c s' =>
      LastIndex_from s' sep (pos + 1) (if Ascii.eqb c sep then pos else found)
  end.
Definition LastIndex (s : string) (sep : ascii) : Z :=
  LastIndex_from s sep 0 (-1).

(** [strings.Repeat(s, count)] for [count >= 0] *)
Fixpoint Repeat (s : string) (count : nat) : string :=
  match count with
  | O => EmptyString
  | S n => s +:+ Repeat s n
  end.

(** [strconv.ParseInt(s, 10, 64)]: an optional sign followed by one or
    more decimal digits, the value within the signed 64-bit range.
    [None] stands for a non-nil error (syntax or range). *)
Definition digit (c : ascii) : option Z :=
  let n := Z.of_nat (nat_of_ascii c) in
  if (48 <=? n) && (n <=? 57) then Some (n - 48) else None.

Fixpoint ParseUint_from (s : string) (acc : Z) : option Z :=
  match s with
  | EmptyString => Some acc
  | String c s' =>
      match digit c with
      | Some d => ParseUint_from s' (acc * 10 + d)
      | None => None
      end
  end.

(** Digits only, at least one; the magnitude is not bounded here, the
    range is checked by [ParseInt]. *)
Definition ParseUint (s : string) : option Z :=
  match s with
  | EmptyString => None
  | _ => ParseUint_from s 0
  end.

Definition ParseInt (s : string) : option Z :=
  match s with
  | EmptyString => None
  | String c s' =>
      let '(neg, body) :=
        if Ascii.eqb c "+"%char then (false, s')
        else if Ascii.eqb c "-"%char then (true, s')
        else (false, s) in
      match ParseUint body with
      | None => None
      | Some un =>
          let cutoff := 2 ^ 63 in
          if negb neg && (cutoff <=? un) then None
          else if neg && (cutoff <? un) then None
          else Some (if neg then - un else un)
      end
  end.

End GoStrings.
Import GoStrings.

(** ** Package accesscontrol *)

Module AccessControl.

(** *** Values and filters *)

(** The dynamic values stored in [interface{}] by this file: 64-bit
    integers and strings. *)
Inductive iface : Type :=
  | Int64 (n : Z)
  | Str (s : string).

#[global] Instance iface_eq_dec : EqDecision iface.
Proof. solve_decision. Defined.

Definition iface_to_sum (v : iface) : Z + string :=
  match v with Int64 n => inl n | Str s => inr s end.
Definition iface_of_sum (v : Z + string) : iface :=
  match v with inl n => Int64 n | inr s => Str s end.

#[global] Instance iface_countable : Countable iface.
Proof.
  refine (inj_countable' iface_to_sum iface_of_sum _).
  intros []; reflexivity.
Defined.

Record SQLFilter : Type := mkSQLFilter {
  Where : string;
  Args : list iface
}.

#[global] Instance SQLFilter_eq_dec : EqDecision SQLFilter.
Proof. solve_decision. Defined.

Definition error : Type := option string.

Definition denyQuery : SQLFilter := mkSQLFilter " 1 = 0" [].
Definition allowAllQuery : SQLFilter := mkSQLFilter " 1 = 1" [].

(** The initial value of the package variable [sqlIDAcceptList]. *)
Definition sqlIDAcceptList : gset string :=
  list_to_set
    [ "id"; "org_user.user_id"; "role.uid"; "t.id"; "team.id"; "u.id";
      dquote +:+ "user" +:+ dquote +:+ "." +:+ dquote +:+ "id" +:+ dquote;
      "`user`.`id`"; "dashboard.uid" ].

(** *** Scope parsing *)

Definition parseIntAttribute (scope : string) : option iface :=
  Int64 <$> ParseInt (slice_from scope (LastIndex scope ":"%char + 1)).

Definition parseStringAttribute (scope : string) : option iface :=
  Some (Str (slice_from scope (LastIndex scope ":"%char + 1))).

(** Modelled from the spec: the type [Wildcards] and its method
    [Contains] are declared outside the sources at hand.  The wildcards
    of a prefix are a collection of scope strings, and a candidate scope
    matches when it is exactly equal to one of them. *)
Definition Wildcards : Type := list string.

Definition Contains (wildcards : Wildcards) (scope : string) : bool :=
  existsb (String.eqb scope) wildcards.

(** Modelled from the spec: the type [user.SignedInUser] is declared
    outside the sources at hand.  Of the signed-in user context the filter
    reads the organization ID and the permission map, keyed by
    organization ID, then action name, giving an ordered list of scope
    strings.  Both levels of the map can be [nil] in Go, hence the
    options. *)
Record SignedInUser : Type := mkSignedInUser {
  OrgID : Z;
  Permissions : option (gmap Z (option (gmap string (list string))))
}.

(** [user.Permissions[user.OrgID]] guarded by the three [nil] tests of
    [Filter]: [None] when the user, the permission map or the entry of
    the user's organization is [nil] (a missing key reads as [nil]). *)
Definition orgPermissions (user : option SignedInUser)
  : option (gmap string (list string)) :=
  match user with
  | None => None
  | Some u =>
      match Permissions u with
      | None => None
      | Some byOrg =>
          match byOrg !! OrgID u with
          | None => None
          | Some perms => perms
          end
      end
  end.

(** [perms[a]]: the scopes of action [a], the nil slice when absent. *)
Definition scopesOf (perms : gmap string (list string)) (a : string)
  : list string :=
  default [] (perms !! a).

(** [result[id] += 1] *)
Definition incr (id : iface) (result : gmap iface nat) : gmap iface nat :=
  <[id := (default 0 (result !! id) + 1)%nat]> result.

(** [for id := range ids { result[id] += 1 }] *)
Definition tally (ids : gset iface) (result : gmap iface nat)
  : gmap iface nat :=
  set_fold incr result ids.

Section FilterModel.

(** The value of the package variable [sqlIDAcceptList] at the call
    ([SetAcceptListForTest] can replace it). *)
Variable acceptList : gset string.

(** [WildcardsFromPrefix] is defined outside the sources at hand; the
    functions below take it as a parameter. *)
Variable WildcardsFromPrefix : string -> Wildcards.

(** The order in which [range] visits the entries of the [result] map.
    Go leaves it unspecified; the properties below assume only that
    every entry is visited once. *)
Variable rangeMap : gmap iface nat -> list (iface * nat).

Fixpoint ParseScopes_loop (parser : string -> option iface)
    (wildcards : Wildcards) (prefix : string) (scopes : list string)
    (ids : gset iface) : gset iface * bool :=
  match scopes with
  | [] => (ids, false)
  | scope :: rest =>
      if Contains wildcards scope then (∅, true)
      else if HasPrefix scope prefix then
        match parser scope with
        | Some id => ParseScopes_loop parser wildcards prefix rest ({[id]} ∪ ids)
        | None => ParseScopes_loop parser wildcards prefix rest ids
        end
      else ParseScopes_loop parser wildcards prefix rest ids
  end.

(** The nil map returned next to [true] reads as the empty set. *)
Definition ParseScopes (prefix : string) (scopes : list string)
  : gset iface * bool :=
  let parser :=
    if HasSuffix prefix ":id:" then parseIntAttribute
    else parseStringAttribute in
  let wildcards := WildcardsFromPrefix prefix in
  ParseScopes_loop parser wildcards prefix scopes ∅.

(** The loop over the actions of [Filter]; [None] is the early
    [return denyQuery, nil]. *)
Fixpoint Filter_loop (prefix : string) (perms : gmap string (list string))
    (actions : list string) (wildcards : nat) (result : gmap iface nat)
  : option (nat * gmap iface nat) :=
  match actions with
  | [] => Some (wildcards, result)
  | a :: rest =>
      let '(ids, hasWildcard) := ParseScopes prefix (scopesOf perms a) in
      if hasWildcard then
        Filter_loop prefix perms rest (wildcards + 1)%nat result
      else if (size ids =? 0)%nat then None
      else Filter_loop prefix perms rest wildcards (tally ids result)
  end.

(** The second loop of [Filter]: the identifiers whose tally, with the
    wildcards, reaches the number of actions. *)
Definition eligible (wildcards nactions : nat) (result : gmap iface nat)
  : list iface :=
  fst <$> filter (λ e, (e.2 + wildcards)%nat = nactions) (rangeMap result).

Definition inQuery (sqlID : string) (n : nat) : string :=
  " " +:+ sqlID +:+ " IN " +:+ "(?" +:+ Repeat ",?" (n - 1) +:+ ")".

Definition Filter (user : option SignedInUser) (sqlID prefix : string)
    (actions : list string) : SQLFilter * error :=
  if bool_decide (sqlID ∉ acceptList) then
    (denyQuery, Some "sqlID is not in the accept list")
  else
    match orgPermissions user with
    | None => (denyQuery, Some "missing permissions")
    | Some perms =>
        match Filter_loop prefix perms actions 0 ∅ with
        | None => (denyQuery, None)
        | Some (wildcards, result) =>
            if (wildcards =? length actions)%nat then (allowAllQuery, None)
            else
              let ids := eligible wildcards (length actions) result in
              if (length ids =? 0)%nat then (denyQuery, None)
              else (mkSQLFilter (inQuery sqlID (length ids)) ids, None)
        end
    end.

(** Notions used to state the properties of [Filter]: what one action
    resolves to for a user's permissions, and when it grants an
    identifier (a wildcarded action grants every identifier). *)
Definition resolves (prefix : string) (perms : gmap string (list string))
    (a : string) : gset iface * bool :=
  ParseScopes prefix (scopesOf perms a).

Definition grants (prefix : string) (perms : gmap string (list string))
    (a : string) (id : iface) : Prop :=
  (resolves prefix perms a).2 = true ∨ id ∈ (resolves prefix perms a).1.

End FilterModel.

(** Modelled from the spec: [WildcardsFromPrefix] is defined outside the
    sources at hand.  For a prefix made of colon-terminated segments
    ([resourceKind:attribute:]) it gives the wildcard of every level at
    or above the prefix: [resourceKind:*] and [resourceKind:attribute:*].
    [seen] is the part of the prefix already read. *)
Fixpoint wildcards_from (seen rest : string) : Wildcards :=
  match rest with
  | EmptyString => []
  | String c rest' =>
      let seen' := seen +:+ String c EmptyString in
      if Ascii.eqb c ":"%char
      then (seen' +:+ "*") :: wildcards_from seen' rest'
      else wildcards_from seen' rest'
  end.

Definition specWildcardsFromPrefix (prefix : string) : Wildcards :=
  wildcards_from "" prefix.

(** *** Role membership *)

Section RolesModel.

(** The constant [GlobalOrgID] is declared outside the sources at
    hand; it is a parameter here. *)
Variable GlobalOrgID : Z.

Definition UserRolesFilterCondition (orgID userID : Z)
  : string * list iface :=
  if (userID =? 0)%Z then ("", [])
  else ("ur.user_id = ? AND (ur.org_id = ? OR ur.org_id = 0)",
        [Int64 userID; Int64 orgID; Int64 GlobalOrgID]).

Definition userRolesFilter (orgID userID : Z) : string * list iface :=
  let '(sql, params) := UserRolesFilterCondition orgID userID in
  if String.eqb sql "" then (sql, params)
  else (newline +:+ tab +:+ "SELECT ur.role_id" +:+ newline +:+ tab
        +:+ "FROM user_role AS ur" +:+ newline +:+ tab
        +:+ "WHERE " +:+ sql +:+ newline +:+ tab, params).

Definition TeamRolesFilderCondition (orgID : Z) (teamIDs : list Z)
  : string * list iface :=
  if (length teamIDs =? 0)%nat then ("", [])
  else ("tr.team_id IN(?" +:+ Repeat ", ?" (length teamIDs - 1)
        +:+ ") AND tr.org_id = ?",
        (Int64 <$> teamIDs) ++ [Int64 orgID]).

Definition teamRolesFilter (orgID : Z) (teamIDs : list Z)
  : string * list iface :=
  let '(sql, params) := TeamRolesFilderCondition orgID teamIDs in
  if String.eqb sql "" then (sql, params)
  else (newline +:+ tab +:+ "SELECT tr.role_id FROM team_role as tr"
        +:+ newline +:+ tab
        +:+ "WHERE " +:+ sql +:+ newline +:+ tab, params).

Definition BuiltinRolesFilterCondition (orgID : Z) (roles : list string)
  : string * list iface :=
  if (length roles =? 0)%nat then ("", [])
  else ("br.role IN (?" +:+ Repeat ", ?" (length roles - 1)
        +:+ ") AND (br.org_id = ? OR br.org_id = ?)",
        (Str <$> roles) ++ [Int64 orgID; Int64 GlobalOrgID]).

Definition builtinRolesFilter (orgID : Z) (roles : list string)
  : string * list iface :=
  let '(sql, params) := BuiltinRolesFilterCondition orgID roles in
  if String.eqb sql "" then (sql, params)
  else (newline +:+ tab +:+ "SELECT br.role_id FROM builtin_role AS br"
        +:+ newline +:+ tab
        +:+ "WHERE " +:+ sql +:+ newline +:+ tab, params).

(** One channel appended to the builder: nothing for an empty [sql],
    otherwise [" OR "] when the builder already holds a clause, then
    the clause and its arguments. *)
Definition orClause (acc : string * list iface) (ch : string * list iface)
  : string * list iface :=
  let '(builder, params) := acc in
  let '(sql, args) := ch in
  if String.eqb sql "" then (builder, params)
  else
    let builder :=
      if (0 <? String.length builder)%nat then builder +:+ " OR "
      else builder in
    (builder +:+ sql, params ++ args).

Definition UserRolesFilter (orgID userID : Z) (teamIDs : list Z)
    (roles : list string) : string * list iface :=
  let acc := ("", []) in
  let acc :=
    let '(builder, params) := acc in
    let '(sql, args) := userRolesFilter orgID userID in
    if String.eqb sql "" then (builder, params)
    else (builder +:+ sql, params ++ args) in
  let acc := orClause acc (teamRolesFilter orgID teamIDs) in
  let acc := orClause acc (builtinRolesFilter orgID roles) in
  ("INNER JOIN (" +:+ acc.1 +:+ ") as all_role ON role.id = all_role.role_id",
   acc.2).

End RolesModel.

End AccessControl.
Import AccessControl.

(** ** Sample callers *)

(** [Filter] with the initial accept list, the wildcards of the
    specification and the iteration order of [map_to_list]. *)
Definition stockFilter : option SignedInUser -> string -> string ->
    list string -> SQLFilter * error :=
  Filter sqlIDAcceptList specWildcardsFromPrefix map_to_list.

(** A user of organization 1 with the given permissions there. *)
Definition userWithPermissions (perms : gmap string (list string))
  : SignedInUser :=
  mkSignedInUser 1 (Some {[ 1%Z := Some perms ]}).

Definition teamPermissions : gmap string (list string) :=
  {[ "teams:read" := ["teams:id:1"; "teams:id:2"; "teams:id:3"];
     "teams:write" := ["teams:id:2"; "teams:id:3"; "teams:id:4"];
     "teams:delete" := ["dashboards:uid:abc"];
     "teams:create" := ["teams:*"];
     "teams:permissions:read" := ["teams:id:*"; "teams:id:8"];
     "teams:permissions:write" := ["teams:id:5"] ]}.

Definition teamReader : gmap string (list string) :=
  {[ "teams:read" := ["teams:id:5"; "teams:id:9"] ]}.

Definition dashboardPermissions : gmap string (list string) :=
  {[ "dashboards:read" := ["dashboards:uid:abc"; "dashboards:uid:def"];
     "dashboards:write" := ["folders:uid:x"; "dashboards:uid:abc"] ]}.

(** ** Occurrences of the [user_role] table in a query *)

(** [pat] occurs in [s]. *)
Definition occurs (pat s : string) : Prop :=
  exists before after, s = before +:+ pat +:+ after.

(** A scanner for ["user_role"]: the state is the number of characters of
    the pattern matched so far, 9 once the whole pattern has been seen.
    The pattern has ['u'] at its head only, so after a mismatch the scan
    restarts at 1 on ['u'] and at 0 otherwise. *)
Definition user_role_step (state : nat) (c : ascii) : nat :=
  if (state =? 9)%nat then 9%nat
  else if bool_decide (String.get state "user_role" = Some c) then S state
  else if Ascii.eqb c "u"%char then 1%nat
  else 0%nat.

Fixpoint user_role_scan (state : nat) (s : string) : nat :=
  match s with
  | EmptyString => state
  | String c s' => user_role_scan (user_role_step state c) s'
  end.

(** Strings that take the scanner from state 0 back to state 0. *)
Definition calm (s : string) : Prop := user_role_scan 0 s = 0%nat.

(** ** Notions used to state further properties *)

(** The position of the last [':'] of a string, read off its structure. *)
Fixpoint last_colon (s : string) : option nat :=
  match s with
  | EmptyString => None
  | String c s' =>
      match last_colon s' with
      | Some i => Some (S i)
      | None => if Ascii.eqb c ":"%char then Some 0%nat else None
      end
  end.

(** The parser that [ParseScopes] selects for a prefix. *)
Definition attributeParser (prefix : string) : string -> option iface :=
  if HasSuffix prefix ":id:" then parseIntAttribute else parseStringAttribute.

(** The range of a signed 64-bit integer. *)
Definition int64_range (n : Z) : Prop := (- 2 ^ 63 <= n < 2 ^ 63)%Z.

(** The number of bytes [c] in [s]; with [c = '?'], the number of
    placeholders of a query. *)
Fixpoint count_byte (c : ascii) (s : string) : nat :=
  match s with
  | EmptyString => 0%nat
  | String c' s' => ((if Ascii.eqb c' c then 1 else 0) + count_byte c s')%nat
  end.

(** Two clauses joined by [" OR "], an empty clause standing for none. *)
Definition joinOr (sql1 sql2 : string) : string :=
  if String.eqb sql2 "" then sql1
  else if String.eqb sql1 "" then sql2
  else sql1 +:+ " OR " +:+ sql2.

(** Two results of [Filter] that differ at most in the order of the
    bound arguments. *)
Definition same_outcome (r1 r2 : SQLFilter * error) : Prop :=
  r1.2 = r2.2 /\ Where r1.1 = Where r2.1 /\ Args r1.1 ≡ₚ Args r2.1.

(** * Properties *)

(** ** The model on a few inputs *)

Example HasSuffix_uid : HasSuffix "dashboards:uid:" ":id:" = false.
Proof. reflexivity. Qed.

Example HasSuffix_id : HasSuffix "teams:id:" ":id:" = true.
Proof. reflexivity. Qed.

Example ParseInt_samples :
  ParseInt "7" = Some 7%Z
  /\ ParseInt "-12" = Some (-12)%Z
  /\ ParseInt "+007" = Some 7%Z
  /\ ParseInt "" = None
  /\ ParseInt "-" = None
  /\ ParseInt "notanumber" = None
  /\ ParseInt "1_000" = None
  /\ ParseInt "9223372036854775807" = Some 9223372036854775807%Z
  /\ ParseInt "9223372036854775808" = None
  /\ ParseInt "-9223372036854775808" = Some (-9223372036854775808)%Z
  /\ ParseInt "-9223372036854775809" = None.
Proof. repeat split; reflexivity. Qed.

Example parseAttribute_samples :
  parseIntAttribute "teams:id:5" = Some (Int64 5)
  /\ parseIntAttribute "teams:id:five" = None
  /\ parseIntAttribute "teams:id:" = None
  /\ parseStringAttribute "dashboards:uid:abc" = Some (Str "abc")
  /\ parseStringAttribute "nocolon" = Some (Str "nocolon").
Proof. repeat split; reflexivity. Qed.

Example specWildcardsFromPrefix_teams :
  specWildcardsFromPrefix "teams:id:" = ["teams:*"; "teams:id:*"].
Proof. reflexivity. Qed.

Example sqlIDAcceptList_quoted :
  (dquote +:+ "user" +:+ dquote +:+ "." +:+ dquote +:+ "id" +:+ dquote)
    ∈ sqlIDAcceptList
  /\ "`user`.`id`" ∈ sqlIDAcceptList
  /\ "user.id" ∉ sqlIDAcceptList.
Proof.
  repeat split; refine (bool_decide_unpack _ _); vm_compute; exact I.
Qed.

Example stockFilter_strings :
  stockFilter
    (Some (userWithPermissions
             {[ "dashboards:read" := ["dashboards:uid:abc"; "folders:uid:x"] ]}))
    "dashboard.uid" "dashboards:uid:" ["dashboards:read"]
  = (mkSQLFilter " dashboard.uid IN (?)" [Str "abc"], None).
Proof. vm_compute. reflexivity. Qed.

Example UserRolesFilter_no_channel :
  UserRolesFilter 0 1 0 [] []
  = ("INNER JOIN () as all_role ON role.id = all_role.role_id", []).
Proof. reflexivity. Qed.

Example UserRolesFilter_three_channels :
  UserRolesFilter 0 1 5 [3; 4]%Z ["Viewer"]
  = ("INNER JOIN ("
     +:+ newline +:+ tab +:+ "SELECT ur.role_id"
     +:+ newline +:+ tab +:+ "FROM user_role AS ur"
     +:+ newline +:+ tab
     +:+ "WHERE ur.user_id = ? AND (ur.org_id = ? OR ur.org_id = 0)"
     +:+ newline +:+ tab +:+ " OR "
     +:+ newline +:+ tab +:+ "SELECT tr.role_id FROM team_role as tr"
     +:+ newline +:+ tab
     +:+ "WHERE tr.team_id IN(?, ?) AND tr.org_id = ?"
     +:+ newline +:+ tab +:+ " OR "
     +:+ newline +:+ tab +:+ "SELECT br.role_id FROM builtin_role AS br"
     +:+ newline +:+ tab
     +:+ "WHERE br.role IN (?) AND (br.org_id = ? OR br.org_id = ?)"
     +:+ newline +:+ tab
     +:+ ") as all_role ON role.id = all_role.role_id",
     [Int64 5; Int64 1; Int64 0; Int64 3; Int64 4; Int64 1;
      Str "Viewer"; Int64 1; Int64 0]).
Proof. vm_compute. reflexivity. Qed.

(** ** The tally *)

Lemma incr_lookup (id id' : iface) (result : gmap iface nat) :
  incr id result !! id' =
    if decide (id = id') then Some (S (default 0 (result !! id)))
    else result !! id'.
Proof.
  unfold incr. rewrite lookup_insert. case_decide; [|done].
  f_equal. lia.
Qed.

Lemma foldr_incr_lookup (l : list iface) (result : gmap iface nat) (id : iface) :
  NoDup l ->
  foldr incr result l !! id =
    if decide (id ∈ l) then Some (S (default 0 (result !! id)))
    else result !! id.
Proof.
  induction 1 as [|x l Hx Hl IH]; cbn [foldr].
  - destruct (decide (id ∈ [])) as [Hin|]; [by apply elem_of_nil in Hin | done].
  - rewrite incr_lookup. destruct (decide (x = id)) as [->|Hne].
    + rewrite IH. rewrite decide_False by done.
      by rewrite decide_True by left.
    + rewrite IH. destruct (decide (id ∈ l)) as [Hin|Hin].
      * by rewrite decide_True by (by right).
      * rewrite decide_False; [done|].
        rewrite elem_of_cons. intros [?|?]; congruence.
Qed.

Lemma tally_lookup (ids : gset iface) (result : gmap iface nat) (id : iface) :
  tally ids result !! id =
    if decide (id ∈ ids) then Some (S (default 0 (result !! id)))
    else result !! id.
Proof.
  unfold tally, set_fold; simpl.
  rewrite foldr_incr_lookup by apply NoDup_elements.
  destruct (decide (id ∈ ids)) as [Hin|Hin].
  - by rewrite decide_True by (by apply elem_of_elements).
  - rewrite decide_False; [done|]. by rewrite elem_of_elements.
Qed.

(** ** The loops of [Filter] *)

Section FilterProps.

Variable acceptList : gset string.
Variable WildcardsFromPrefix : string -> Wildcards.
Variable rangeMap : gmap iface nat -> list (iface * nat).

(** [range] visits every entry of the map once, in some order. *)
Hypothesis rangeMap_perm : forall m, rangeMap m ≡ₚ map_to_list m.

Local Abbreviation ParseScopes := (ParseScopes WildcardsFromPrefix).
Local Abbreviation Filter_loop := (Filter_loop WildcardsFromPrefix).
Local Abbreviation resolves := (resolves WildcardsFromPrefix).
Local Abbreviation grants := (grants WildcardsFromPrefix).
Local Abbreviation Filter := (Filter acceptList WildcardsFromPrefix rangeMap).

Implicit Types (prefix sqlID a : string) (actions : list string).
Implicit Types (perms : gmap string (list string)) (id : iface).
Implicit Types (result : gmap iface nat) (wildcards : nat).

Lemma eligible_perm wildcards n result :
  eligible rangeMap wildcards n result
    ≡ₚ eligible map_to_list wildcards n result.
Proof. unfold eligible. by rewrite rangeMap_perm. Qed.

Lemma elem_of_eligible wildcards n result id :
  id ∈ eligible rangeMap wildcards n result
  <-> exists count, result !! id = Some count /\ (count + wildcards = n)%nat.
Proof.
  rewrite eligible_perm. unfold eligible.
  rewrite list_elem_of_fmap. split.
  - intros [[id' count] [-> [Hc Hin]%list_elem_of_filter]].
    apply elem_of_map_to_list in Hin. eauto.
  - intros (count & Hl & Hc). exists (id, count). split; [done|].
    apply list_elem_of_filter. split; [done|].
    by apply elem_of_map_to_list.
Qed.

Lemma NoDup_eligible wildcards n result :
  NoDup (eligible rangeMap wildcards n result).
Proof.
  rewrite eligible_perm. unfold eligible.
  assert (Hsub : eligible map_to_list wildcards n result
                   `sublist_of` (map_to_list result).*1)
    by apply fmap_sublist, sublist_filter.
  eapply sublist_NoDup in Hsub; [done|].
  apply NoDup_fst_map_to_list.
Qed.

Lemma Filter_loop_step prefix perms a wildcards result :
  Filter_loop prefix perms [a] wildcards result =
    if (resolves prefix perms a).2 then Some ((wildcards + 1)%nat, result)
    else if (size (resolves prefix perms a).1 =? 0)%nat then None
    else Some (wildcards, tally (resolves prefix perms a).1 result).
Proof.
  unfold resolves; cbn [AccessControl.Filter_loop].
  destruct (ParseScopes _ _) as [ids []]; cbn [fst snd]; [done|].
  by destruct (size ids =? 0)%nat.
Qed.

Lemma Filter_loop_app prefix perms actions1 actions2 wildcards result :
  Filter_loop prefix perms (actions1 ++ actions2) wildcards result =
    match Filter_loop prefix perms actions1 wildcards result with
    | None => None
    | Some (wildcards', result') =>
        Filter_loop prefix perms actions2 wildcards' result'
    end.
Proof.
  revert wildcards result.
  induction actions1 as [|a actions1 IH]; intros wildcards result;
    cbn [app AccessControl.Filter_loop]; [done|].
  destruct (ParseScopes _ _) as [ids []]; [apply IH|].
  destruct (size ids =? 0)%nat; [done|apply IH].
Qed.

(** The loop returns early exactly when some action resolves to no
    identifier and no wildcard. *)
Lemma Filter_loop_None prefix perms actions wildcards result :
  Filter_loop prefix perms actions wildcards result = None
  <-> exists a, a ∈ actions
        /\ (resolves prefix perms a).2 = false
        /\ (resolves prefix perms a).1 = ∅.
Proof.
  revert wildcards result.
  induction actions as [|a actions IH]; intros wildcards result.
  - cbn. split; [done|]. intros (a & Hin & _). by apply elem_of_nil in Hin.
  - change (a :: actions) with ([a] ++ actions).
    rewrite Filter_loop_app, Filter_loop_step.
    destruct (resolves prefix perms a) as [ids hasWildcard] eqn:Hres.
    cbn [fst snd]. destruct hasWildcard.
    + rewrite IH. split.
      * intros (a' & Hin & ?). exists a'. split; [by right|done].
      * intros (a' & [->|Hin]%elem_of_cons & Hw & He).
        -- rewrite Hres in Hw. discriminate.
        -- eauto.
    + destruct (size ids =? 0)%nat eqn:Hsz.
      * split; [intros _|done]. exists a. rewrite Hres. cbn.
        split; [by left|]. split; [done|].
        apply Nat.eqb_eq in Hsz. by apply leibniz_equiv, size_empty_iff.
      * rewrite IH. split.
        -- intros (a' & Hin & ?). exists a'. split; [by right|done].
        -- intros (a' & [->|Hin]%elem_of_cons & Hw & He); [|eauto].
           rewrite Hres in He. cbn in He. subst ids.
           by rewrite size_empty in Hsz.
Qed.

(** What the loop has computed when it runs to its end: [wildcards]
    counts the wildcarded actions, and an identifier's tally plus
    [wildcards] reaches the number of actions exactly when every action
    grants it. *)
Lemma Filter_loop_Some prefix perms actions wildcards result :
  Filter_loop prefix perms actions 0 ∅ = Some (wildcards, result) ->
  (wildcards <= length actions)%nat
  /\ (wildcards = length actions
      <-> forall a, a ∈ actions -> (resolves prefix perms a).2 = true)
  /\ (forall id, (default 0 (result !! id) + wildcards <= length actions)%nat)
  /\ (forall id, (default 0 (result !! id) + wildcards)%nat = length actions
                <-> forall a, a ∈ actions -> grants prefix perms a id)
  /\ (forall id count, result !! id = Some count -> (1 <= count)%nat).
Proof.
  revert wildcards result.
  induction actions as [|a actions IH] using rev_ind; intros wildcards result.
  - cbn. intros [= <- <-]. split; [lia|]. split; [|split; [|split]].
    + split; [|done]. intros _ a Hin. by apply elem_of_nil in Hin.
    + intros id. rewrite lookup_empty. cbn. lia.
    + intros id. rewrite lookup_empty. cbn.
      split; [|done]. intros _ a Hin. by apply elem_of_nil in Hin.
    + intros id count. by rewrite lookup_empty.
  - rewrite Filter_loop_app.
    destruct (Filter_loop prefix perms actions 0 ∅) as [[w1 r1]|]; [|done].
    destruct (IH w1 r1 eq_refl) as (Hle & Hall & Hbound & Hgr & Hpos).
    clear IH.
    rewrite Filter_loop_step, length_app. cbn [length].
    unfold grants in *.
    destruct (resolves prefix perms a) as [ids hasWildcard] eqn:Hres.
    cbn [fst snd]. destruct hasWildcard.
    + intros [= <- <-]. split; [lia|]. split; [|split; [|split]]; [..|done].
      * split.
        -- intros Hw a' [Hin| ->%list_elem_of_singleton]%elem_of_app.
           ++ apply Hall; [lia|done].
           ++ by rewrite Hres.
        -- intros H. cut (w1 = length actions); [lia|].
           apply Hall. intros a' Hin. apply H, elem_of_app. by left.
      * intros id. specialize (Hbound id). lia.
      * intros id. split.
        -- intros Hc a' [Hin| ->%list_elem_of_singleton]%elem_of_app.
           ++ apply Hgr; [lia|done].
           ++ rewrite Hres. by left.
        -- intros H. cut ((default 0 (r1 !! id) + w1)%nat = length actions);
             [lia|].
           apply Hgr. intros a' Hin. apply H, elem_of_app. by left.
    + destruct (size ids =? 0)%nat; [done|].
      intros [= <- <-]. split; [lia|]. split; [|split; [|split]].
      * split; [lia|].
        intros H. specialize (H a). rewrite Hres in H. cbn in H.
        discriminate H. apply elem_of_app. right. by left.
      * intros id. specialize (Hbound id). rewrite tally_lookup.
        case_decide; cbn; lia.
      * intros id. specialize (Hbound id). rewrite tally_lookup. split.
        -- intros Hc a' [Hin| ->%list_elem_of_singleton]%elem_of_app.
           ++ apply Hgr; [|done]. case_decide; cbn in Hc; lia.
           ++ rewrite Hres. cbn. right. case_decide; [done|]. lia.
        -- intros H.
           assert (Hid : id ∈ ids).
           { destruct (H a) as [Hw|Hin]; [apply elem_of_app; right; by left|..];
               rewrite Hres in *; [discriminate|done]. }
           rewrite decide_True by done. cbn.
           cut ((default 0 (r1 !! id) + w1)%nat = length actions); [lia|].
           apply Hgr. intros a' Hin. apply H, elem_of_app. by left.
      * intros id count. rewrite tally_lookup.
        case_decide; [intros [= <-]; lia|apply Hpos].
Qed.

(** [ParseScopes] reports a wildcard exactly when one of the scopes is
    among the wildcards of the prefix. *)
Lemma ParseScopes_loop_wildcard parser (wildcards : Wildcards) prefix
    (scopes : list string) (ids : gset iface) :
  (ParseScopes_loop parser wildcards prefix scopes ids).2 = true
  <-> exists scope, scope ∈ scopes /\ Contains wildcards scope = true.
Proof.
  revert ids. induction scopes as [|scope scopes IH]; intros ids.
  - cbn. split; [done|]. intros (s & Hin & _). by apply elem_of_nil in Hin.
  - cbn [AccessControl.ParseScopes_loop].
    destruct (Contains wildcards scope) eqn:Hc.
    + cbn. split; [intros _|done]. exists scope. split; [by left|done].
    + assert (Hrest : forall ids',
               (ParseScopes_loop parser wildcards prefix scopes ids').2 = true
               <-> exists s, s ∈ scope :: scopes /\ Contains wildcards s = true).
      { intros ids'. rewrite IH. split.
        - intros (s & Hin & ?). exists s. split; [by right|done].
        - intros (s & [->|Hin]%elem_of_cons & Hs); [congruence|eauto]. }
      destruct (HasPrefix scope prefix); [|apply Hrest].
      destruct (parser scope); apply Hrest.
Qed.

Lemma ParseScopes_wildcard prefix scopes :
  (ParseScopes prefix scopes).2 = true
  <-> exists scope, scope ∈ scopes
        /\ Contains (WildcardsFromPrefix prefix) scope = true.
Proof. apply ParseScopes_loop_wildcard. Qed.

(** ** The result of [Filter] *)

Lemma Filter_accepted user sqlID prefix actions perms :
  sqlID ∈ acceptList ->
  orgPermissions user = Some perms ->
  Filter user sqlID prefix actions =
    match Filter_loop prefix perms actions 0 ∅ with
    | None => (denyQuery, None)
    | Some (wildcards, result) =>
        if (wildcards =? length actions)%nat then (allowAllQuery, None)
        else
          let ids := eligible rangeMap wildcards (length actions) result in
          if (length ids =? 0)%nat then (denyQuery, None)
          else (mkSQLFilter (inQuery sqlID (length ids)) ids, None)
    end.
Proof.
  intros Hacc Hperms. unfold AccessControl.Filter.
  rewrite bool_decide_eq_false_2 by (intros Hn; by apply Hn).
  by rewrite Hperms.
Qed.

(** For an accept-listed column and a user with permissions: no error,
    no argument twice, and an identifier is bound exactly when every
    action grants it and not all of them are wildcarded. *)
Lemma Filter_Args user sqlID prefix actions perms :
  sqlID ∈ acceptList ->
  orgPermissions user = Some perms ->
  (Filter user sqlID prefix actions).2 = None
  /\ NoDup (Args (Filter user sqlID prefix actions).1)
  /\ (forall id,
        id ∈ Args (Filter user sqlID prefix actions).1
        <-> (exists a, a ∈ actions /\ (resolves prefix perms a).2 = false)
            /\ (forall a, a ∈ actions -> grants prefix perms a id))
  /\ (Args (Filter user sqlID prefix actions).1 <> [] ->
      Where (Filter user sqlID prefix actions).1
        = inQuery sqlID (length (Args (Filter user sqlID prefix actions).1))).
Proof.
  intros Hacc Hperms. rewrite (Filter_accepted _ _ _ _ _ Hacc Hperms).
  destruct (Filter_loop prefix perms actions 0 ∅) as [[wildcards result]|]
    eqn:Hloop.
  - destruct (Filter_loop_Some _ _ _ _ _ Hloop)
      as (Hle & Hall & Hbound & Hgr & Hpos).
    assert (Hnotall : wildcards <> length actions ->
              exists a, a ∈ actions /\ (resolves prefix perms a).2 = false).
    { intros Hne.
      destruct (decide (Forall (fun a => (resolves prefix perms a).2 = true)
                               actions)) as [Hf|Hf].
      - destruct Hne. apply Hall. by apply Forall_forall.
      - apply not_Forall_Exists in Hf; [|apply _].
        apply Exists_exists in Hf as (a & Hin & Hn). exists a.
        split; [done|]. by apply not_true_is_false. }
    assert (Hel : forall id,
              id ∈ eligible rangeMap wildcards (length actions) result
              <-> (exists a, a ∈ actions /\ (resolves prefix perms a).2 = false)
                  /\ (forall a, a ∈ actions -> grants prefix perms a id)).
    { intros id. rewrite elem_of_eligible. split.
      - intros (count & Hl & Hc). split.
        + apply Hnotall. intros ->. apply Hpos in Hl. lia.
        + apply Hgr. by rewrite Hl.
      - intros ((a & Hin & Hw) & Hg). apply Hgr in Hg.
        assert (Hne : wildcards <> length actions).
        { intros Heq. rewrite (proj1 Hall Heq a Hin) in Hw. done. }
        destruct (result !! id) as [count|] eqn:Hl; cbn in Hg; [eauto|lia]. }
    destruct (wildcards =? length actions)%nat eqn:Hw.
    + apply Nat.eqb_eq in Hw. cbn. split; [done|]. split; [constructor|].
      split; [|done]. intros id. split; [by intros ?%elem_of_nil|].
      intros ((a & Hin & Hf) & _).
      rewrite (proj1 Hall Hw a Hin) in Hf. done.
    + cbn zeta.
      destruct (length (eligible _ _ _ _) =? 0)%nat eqn:Hlen.
      * apply Nat.eqb_eq, length_zero_iff_nil in Hlen. cbn.
        split; [done|]. split; [constructor|]. split; [|done].
        intros id. rewrite <- Hel, Hlen. done.
      * cbn. split; [done|]. split; [apply NoDup_eligible|]. done.
  - apply Filter_loop_None in Hloop as (a & Hin & Hw & He). cbn.
    split; [done|]. split; [constructor|]. split; [|done].
    intros id. split; [by intros ?%elem_of_nil|].
    intros (_ & Hg). destruct (Hg a Hin) as [Hg'|Hg'].
    + congruence.
    + rewrite He in Hg'. by apply not_elem_of_empty in Hg'.
Qed.

(** ** Rejections *)

(** C1: a column identifier that is not in the accept list gives the
    deny-all filter ([" 1 = 0"], no arguments) and a non-nil error,
    whatever the user, the prefix and the actions. *)
Theorem Filter_column_not_accepted user sqlID prefix actions :
  sqlID ∉ acceptList ->
  (Filter user sqlID prefix actions).1 = denyQuery
  /\ Where (Filter user sqlID prefix actions).1 = " 1 = 0"
  /\ Args (Filter user sqlID prefix actions).1 = []
  /\ (Filter user sqlID prefix actions).2 <> None.
Proof.
  intros Hnot. unfold AccessControl.Filter.
  rewrite bool_decide_eq_true_2 by done. cbn. done.
Qed.

(** C7: a nil user, a nil permission map, or a map without an entry for
    the user's organization (or with a nil one) gives the deny-all filter
    and a non-nil error, for every column, prefix and action list. *)
Theorem Filter_missing_permissions user sqlID prefix actions :
  (user = None
   \/ exists u, user = Some u
        /\ (Permissions u = None
            \/ exists byOrg, Permissions u = Some byOrg
                 /\ (byOrg !! OrgID u = None \/ byOrg !! OrgID u = Some None))) ->
  (Filter user sqlID prefix actions).1 = denyQuery
  /\ (Filter user sqlID prefix actions).2 <> None.
Proof.
  intros Hmissing.
  assert (Hperms : orgPermissions user = None).
  { destruct Hmissing as [->|(u & -> & [Hp|(byOrg & Hp & [Ho|Ho])])];
      cbn; [done|by rewrite Hp|by rewrite Hp, Ho..]. }
  unfold AccessControl.Filter. rewrite Hperms.
  by destruct (bool_decide (sqlID ∉ acceptList)).
Qed.

(** C2: with an accept-listed column, one action that resolves to no
    identifier and no wildcard makes the result the deny-all filter with
    a nil error, whatever the other actions grant. *)
Theorem Filter_empty_action user sqlID prefix actions perms a :
  sqlID ∈ acceptList ->
  orgPermissions user = Some perms ->
  a ∈ actions ->
  ParseScopes prefix (scopesOf perms a) = (∅, false) ->
  Filter user sqlID prefix actions = (denyQuery, None).
Proof.
  intros Hacc Hperms Hin Hres.
  rewrite (Filter_accepted _ _ _ _ _ Hacc Hperms).
  assert (Hloop : Filter_loop prefix perms actions 0 ∅ = None).
  { apply Filter_loop_None. exists a. unfold resolves. by rewrite Hres. }
  by rewrite Hloop.
Qed.

(** ** Allow-all *)

(** C5: with an accept-listed column, when every requested action has a
    scope among the wildcards of the prefix, the result is the allow-all
    filter ([" 1 = 1"], no arguments, no IN-list) with a nil error. *)
Theorem Filter_all_wildcards user sqlID prefix actions perms :
  sqlID ∈ acceptList ->
  orgPermissions user = Some perms ->
  (forall a, a ∈ actions ->
     exists scope, scope ∈ scopesOf perms a
       /\ Contains (WildcardsFromPrefix prefix) scope = true) ->
  Filter user sqlID prefix actions = (allowAllQuery, None)
  /\ Where (Filter user sqlID prefix actions).1 = " 1 = 1"
  /\ Args (Filter user sqlID prefix actions).1 = [].
Proof.
  intros Hacc Hperms Hwild.
  assert (Hall : forall a, a ∈ actions -> (resolves prefix perms a).2 = true).
  { intros a Hin. by apply ParseScopes_wildcard, Hwild. }
  rewrite (Filter_accepted _ _ _ _ _ Hacc Hperms).
  destruct (Filter_loop prefix perms actions 0 ∅) as [[wildcards result]|]
    eqn:Hloop.
  - destruct (Filter_loop_Some _ _ _ _ _ Hloop) as (_ & Hw & _).
    apply Hw in Hall. apply Nat.eqb_eq in Hall. by rewrite Hall.
  - apply Filter_loop_None in Hloop as (a & Hin & Hf & _).
    rewrite (Hall a Hin) in Hf. done.
Qed.

(** C6: with an accept-listed column and a user that has a permission map
    for their organization, an empty action list gives the allow-all
    filter with a nil error. *)
Theorem Filter_no_actions user sqlID prefix perms :
  sqlID ∈ acceptList ->
  orgPermissions user = Some perms ->
  Filter user sqlID prefix [] = (allowAllQuery, None).
Proof.
  intros Hacc Hperms. by rewrite (Filter_accepted _ _ _ _ _ Hacc Hperms).
Qed.

(** ** The IN-list *)

(** Membership among explicitly listed identifiers. *)
Ltac ids_solver :=
  set_unfold; intuition (subst; auto; try discriminate; congruence).

(** When [l] lists, without repetition, the identifiers granted by every
    action, and some action is not wildcarded, [Filter] binds exactly
    [l], in some order, behind one placeholder each. *)
Lemma Filter_IN_list user sqlID prefix actions perms (l : list iface) :
  sqlID ∈ acceptList ->
  orgPermissions user = Some perms ->
  NoDup l -> l <> [] ->
  (exists a, a ∈ actions /\ (resolves prefix perms a).2 = false) ->
  (forall id, id ∈ l <-> forall a, a ∈ actions -> grants prefix perms a id) ->
  (Filter user sqlID prefix actions).2 = None
  /\ Where (Filter user sqlID prefix actions).1 = inQuery sqlID (length l)
  /\ Args (Filter user sqlID prefix actions).1 ≡ₚ l.
Proof.
  intros Hacc Hperms Hnd Hne Hex Hl.
  destruct (Filter_Args user sqlID prefix actions perms Hacc Hperms)
    as (Herr & Hnd' & Hin & Hwhere).
  assert (Hperm : Args (Filter user sqlID prefix actions).1 ≡ₚ l).
  { apply NoDup_Permutation; [done..|]. intros id. rewrite Hin, Hl. tauto. }
  split; [done|]. split; [|done].
  rewrite Hwhere; [by rewrite Hperm|].
  intros Hnil. rewrite Hnil in Hperm. by apply Permutation_nil_l in Hperm.
Qed.

(** Whatever the column, the user and the prefix, an identifier that
    [Filter] binds is granted by every requested action, under the
    permissions of the user's organization. *)
Lemma Filter_bound_granted user sqlID prefix actions id :
  id ∈ Args (Filter user sqlID prefix actions).1 ->
  exists perms,
    orgPermissions user = Some perms
    /\ forall a, a ∈ actions -> grants prefix perms a id.
Proof.
  intros Hid.
  destruct (decide (sqlID ∈ acceptList)) as [Hacc|Hacc];
    [destruct (orgPermissions user) as [perms|] eqn:Hperms|].
  - exists perms. split; [done|].
    by apply (Filter_Args user sqlID prefix actions perms Hacc Hperms).
  - unfold AccessControl.Filter in Hid. rewrite Hperms in Hid.
    destruct (bool_decide (sqlID ∉ acceptList));
      by apply elem_of_nil in Hid.
  - unfold AccessControl.Filter in Hid.
    rewrite bool_decide_eq_true_2 in Hid by done.
    by apply elem_of_nil in Hid.
Qed.

(** C3: two actions that resolve to [{1,2,3}] and [{2,3,4}], neither
    wildcarded, give a filter that binds exactly [{2,3}]; and in
    general, for every column, user, prefix and action list, an
    identifier bound by the filter is granted by every requested
    action. *)
Theorem Filter_intersection :
  (forall user sqlID prefix perms A1 A2,
     sqlID ∈ acceptList ->
     orgPermissions user = Some perms ->
     ParseScopes prefix (scopesOf perms A1)
       = ({[Int64 1; Int64 2; Int64 3]}, false) ->
     ParseScopes prefix (scopesOf perms A2)
       = ({[Int64 2; Int64 3; Int64 4]}, false) ->
     (Filter user sqlID prefix [A1; A2]).2 = None
     /\ Where (Filter user sqlID prefix [A1; A2]).1
          = " " +:+ sqlID +:+ " IN (?,?)"
     /\ Args (Filter user sqlID prefix [A1; A2]).1 ≡ₚ [Int64 2; Int64 3]
     /\ list_to_set (Args (Filter user sqlID prefix [A1; A2]).1)
          = ({[Int64 2; Int64 3]} : gset iface))
  /\ (forall user sqlID prefix actions id,
        id ∈ Args (Filter user sqlID prefix actions).1 ->
        exists perms,
          orgPermissions user = Some perms
          /\ forall a, a ∈ actions -> grants prefix perms a id).
Proof.
  split.
  - intros user sqlID prefix perms A1 A2 Hacc Hperms H1 H2.
    destruct (Filter_IN_list user sqlID prefix [A1; A2] perms
                [Int64 2; Int64 3] Hacc Hperms) as (Herr & Hwhere & Hargs).
    + repeat constructor; ids_solver.
    + done.
    + exists A1. unfold resolves. rewrite H1. split; [by left|done].
    + intros id. unfold grants, resolves. split.
      * intros Hid a [->|[->|[]%elem_of_nil]%elem_of_cons]%elem_of_cons;
          [rewrite H1|rewrite H2]; right; cbn; ids_solver.
      * intros Hg.
        destruct (Hg A1) as [Hw|Hi1]; [by left|by rewrite H1 in Hw|].
        destruct (Hg A2) as [Hw|Hi2]; [by right; left|by rewrite H2 in Hw|].
        rewrite H1 in Hi1. rewrite H2 in Hi2. cbn in Hi1, Hi2. ids_solver.
    + split; [done|]. split; [exact Hwhere|]. split; [done|].
      rewrite Hargs. ids_solver.
  - intros user sqlID prefix actions id. apply Filter_bound_granted.
Qed.

(** C4: a wildcarded action next to an action that resolves to [{5}]
    gives a filter that binds exactly [5], in either order of the two
    actions. *)
Theorem Filter_wildcard_and_ids user sqlID prefix perms A1 A2 :
  sqlID ∈ acceptList ->
  orgPermissions user = Some perms ->
  (ParseScopes prefix (scopesOf perms A1)).2 = true ->
  ParseScopes prefix (scopesOf perms A2) = ({[Int64 5]}, false) ->
  Filter user sqlID prefix [A1; A2]
    = (mkSQLFilter (" " +:+ sqlID +:+ " IN (?)") [Int64 5], None)
  /\ Filter user sqlID prefix [A2; A1]
    = (mkSQLFilter (" " +:+ sqlID +:+ " IN (?)") [Int64 5], None).
Proof.
  intros Hacc Hperms H1 H2.
  assert (Hboth : forall actions,
            (forall a, a ∈ actions <-> a = A1 \/ a = A2) ->
            Filter user sqlID prefix actions
              = (mkSQLFilter (" " +:+ sqlID +:+ " IN (?)") [Int64 5], None)).
  { intros actions Hact.
    destruct (Filter_IN_list user sqlID prefix actions perms
                [Int64 5] Hacc Hperms) as (Herr & Hwhere & Hargs).
    - repeat constructor; ids_solver.
    - done.
    - exists A2. unfold resolves. rewrite H2. split; [|done].
      apply Hact. by right.
    - intros id. unfold grants, resolves. split.
      + intros Hid a [->| ->]%Hact; [by left|].
        right. rewrite H2. cbn. ids_solver.
      + intros Hg. destruct (Hg A2) as [Hw|Hi]; [apply Hact; by right|..].
        * by rewrite H2 in Hw.
        * rewrite H2 in Hi. cbn in Hi. ids_solver.
    - apply Permutation_singleton_r in Hargs.
      destruct (Filter user sqlID prefix actions) as [[w args] err].
      cbn in *. by subst. }
  split; apply Hboth; intros a; rewrite !elem_of_cons, elem_of_nil; tauto.
Qed.

(** ** Concrete calls *)

Lemma ParseScopes_teams_5_9 :
  Contains (WildcardsFromPrefix "teams:id:") "teams:id:5" = false ->
  Contains (WildcardsFromPrefix "teams:id:") "teams:id:9" = false ->
  ParseScopes "teams:id:" ["teams:id:5"; "teams:id:9"]
    = ({[Int64 5; Int64 9]}, false).
Proof.
  intros H5 H9. unfold AccessControl.ParseScopes.
  cbn [AccessControl.ParseScopes_loop]. rewrite H5, H9.
  vm_compute. reflexivity.
Qed.

(** C10: for a user whose scopes for ["teams:read"] in their organization
    are [["teams:id:5"; "teams:id:9"]], neither of them a wildcard of the
    prefix, [Filter(user, "t.id", "teams:id:", "teams:read")] returns a
    nil error and the filter [" t.id IN (?,?)"] whose arguments are the
    64-bit integers 5 and 9, in some order. *)
Theorem Filter_teams_read (u : SignedInUser) byOrg perms :
  "t.id" ∈ acceptList ->
  Contains (WildcardsFromPrefix "teams:id:") "teams:id:5" = false ->
  Contains (WildcardsFromPrefix "teams:id:") "teams:id:9" = false ->
  Permissions u = Some byOrg ->
  byOrg !! OrgID u = Some (Some perms) ->
  perms !! "teams:read" = Some ["teams:id:5"; "teams:id:9"] ->
  (Filter (Some u) "t.id" "teams:id:" ["teams:read"]).2 = None
  /\ Where (Filter (Some u) "t.id" "teams:id:" ["teams:read"]).1
       = " t.id IN (?,?)"
  /\ Args (Filter (Some u) "t.id" "teams:id:" ["teams:read"]).1
       ≡ₚ [Int64 5; Int64 9]
  /\ list_to_set (Args (Filter (Some u) "t.id" "teams:id:" ["teams:read"]).1)
       = ({[Int64 5; Int64 9]} : gset iface).
Proof.
  intros Hacc H5 H9 Hp Ho Hread.
  assert (Hperms : orgPermissions (Some u) = Some perms).
  { cbn. by rewrite Hp, Ho. }
  assert (Hres : resolves "teams:id:" perms "teams:read"
                 = ({[Int64 5; Int64 9]}, false)).
  { unfold resolves, scopesOf. rewrite Hread. cbn [default].
    by apply ParseScopes_teams_5_9. }
  destruct (Filter_IN_list (Some u) "t.id" "teams:id:" ["teams:read"] perms
              [Int64 5; Int64 9] Hacc Hperms) as (Herr & Hwhere & Hargs).
  - repeat constructor; ids_solver.
  - done.
  - exists "teams:read". rewrite Hres. split; [by left|done].
  - intros id. unfold grants. split.
    + intros Hid a ->%list_elem_of_singleton. rewrite Hres. right. cbn.
      ids_solver.
    + intros Hg. destruct (Hg "teams:read") as [Hw|Hi]; [by left|..];
        rewrite Hres in *; [done|]. cbn in Hi. ids_solver.
  - split; [done|]. split; [exact Hwhere|]. split; [done|].
    rewrite Hargs. ids_solver.
Qed.

(** C9, as the code has it: the prefix ["dashboards:uid:"] does not end
    in [":id:"], so [ParseScopes] reads the identifiers as strings.  When
    none of the three scopes is a wildcard of the prefix, the call of the
    claim yields the strings ["7"] and ["notanumber"] and no wildcard:
    only the scope with another prefix is dropped.  Under the integer
    mode of the prefix ["dashboards:id:"], the corresponding scopes yield
    the 64-bit integer [7] alone and no wildcard. *)
Theorem ParseScopes_dashboards :
  Forall (fun scope =>
            Contains (WildcardsFromPrefix "dashboards:uid:") scope = false)
    ["dashboards:uid:7"; "dashboards:uid:notanumber"; "other:uid:9"] ->
  Forall (fun scope =>
            Contains (WildcardsFromPrefix "dashboards:id:") scope = false)
    ["dashboards:id:7"; "dashboards:id:notanumber"; "other:id:9"] ->
  ParseScopes "dashboards:uid:"
    ["dashboards:uid:7"; "dashboards:uid:notanumber"; "other:uid:9"]
    = ({[Str "7"; Str "notanumber"]}, false)
  /\ ParseScopes "dashboards:id:"
       ["dashboards:id:7"; "dashboards:id:notanumber"; "other:id:9"]
     = ({[Int64 7]}, false).
Proof.
  intros Huid Hid.
  apply Forall_cons in Huid as [Hu1 Huid].
  apply Forall_cons in Huid as [Hu2 Huid].
  apply Forall_cons in Huid as [Hu3 _].
  apply Forall_cons in Hid as [Hi1 Hid].
  apply Forall_cons in Hid as [Hi2 Hid].
  apply Forall_cons in Hid as [Hi3 _].
  unfold AccessControl.ParseScopes. cbn [AccessControl.ParseScopes_loop].
  rewrite Hu1, Hu2, Hu3, Hi1, Hi2, Hi3.
  split; vm_compute; reflexivity.
Qed.

(** The call of C9 never gives the integer set [{7}], whatever the
    wildcards of the prefix are. *)
Lemma ParseScopes_dashboards_uid_never_integer :
  ParseScopes "dashboards:uid:"
    ["dashboards:uid:7"; "dashboards:uid:notanumber"; "other:uid:9"]
    <> ({[Int64 7]}, false).
Proof.
  unfold AccessControl.ParseScopes. cbn [AccessControl.ParseScopes_loop].
  destruct (Contains _ "dashboards:uid:7"); [discriminate|].
  destruct (Contains _ "dashboards:uid:notanumber"); [discriminate|].
  destruct (Contains _ "other:uid:9"); [discriminate|].
  intros Heq.
  assert (Hin : Str "7" ∈ ({[Int64 7]} : gset iface)).
  { apply (f_equal fst) in Heq. cbn [fst] in Heq. rewrite <- Heq.
    refine (bool_decide_unpack _ _). vm_compute. exact I. }
  apply elem_of_singleton in Hin. discriminate Hin.
Qed.

End FilterProps.


(** ** Role membership *)

Lemma user_role_scan_app (state : nat) (s1 s2 : string) :
  user_role_scan state (s1 +:+ s2)
    = user_role_scan (user_role_scan state s1) s2.
Proof.
  revert state. induction s1 as [|c s1 IH]; intros state; [done|].
  cbn [String.append user_role_scan]. apply IH.
Qed.

Lemma user_role_step_bound (state : nat) (c : ascii) :
  (state <= 9)%nat -> (user_role_step state c <= 9)%nat.
Proof.
  intros Hle. unfold user_role_step.
  destruct (state =? 9)%nat eqn:H9; [lia|]. apply Nat.eqb_neq in H9.
  case_bool_decide; [lia|]. destruct (Ascii.eqb c "u"); lia.
Qed.

Lemma user_role_scan_bound (state : nat) (s : string) :
  (state <= 9)%nat -> (user_role_scan state s <= 9)%nat.
Proof.
  revert state. induction s as [|c s IH]; intros state Hle; [done|].
  cbn. by apply IH, user_role_step_bound.
Qed.

Lemma user_role_scan_found (s : string) : user_role_scan 9 s = 9%nat.
Proof. induction s as [|c s IH]; [done|]. cbn. apply IH. Qed.

Lemma user_role_scan_pattern (state : nat) :
  (state <= 9)%nat -> user_role_scan state "user_role" = 9%nat.
Proof.
  intros Hle. do 10 (destruct state as [|state]; [by vm_compute|]). lia.
Qed.

(** The scanner is complete: it ends in state 9 on every string in which
    the pattern occurs. *)
Lemma occurs_user_role_scan (s : string) :
  occurs "user_role" s -> user_role_scan 0 s = 9%nat.
Proof.
  intros (before & after & ->).
  rewrite !user_role_scan_app, user_role_scan_pattern.
  - apply user_role_scan_found.
  - apply user_role_scan_bound. lia.
Qed.

Lemma calm_app (s1 s2 : string) : calm s1 -> calm s2 -> calm (s1 +:+ s2).
Proof. unfold calm. intros H1 H2. by rewrite user_role_scan_app, H1. Qed.

Lemma calm_Repeat (s : string) (n : nat) : calm s -> calm (Repeat s n).
Proof. intros Hs. induction n as [|n IH]; [done|]. by apply calm_app. Qed.

Ltac calm_pieces :=
  repeat match goal with
         | |- calm (Repeat _ _) => apply calm_Repeat
         | |- calm (String.append _ _) => apply calm_app
         end;
  first [assumption | by vm_compute].

Lemma calm_not_occurs (s : string) : calm s -> ~ occurs "user_role" s.
Proof. intros Hc Ho%occurs_user_role_scan. unfold calm in Hc. lia. Qed.

Lemma append_assoc (s1 s2 s3 : string) :
  (s1 +:+ s2) +:+ s3 = s1 +:+ s2 +:+ s3.
Proof.
  induction s1 as [|c s1 IH]; [done|]. exact (f_equal (String c) IH).
Qed.

Lemma append_empty_r (s : string) : s +:+ "" = s.
Proof.
  induction s as [|c s IH]; [done|]. exact (f_equal (String c) IH).
Qed.

(** A string that starts with a character is not empty. *)
Lemma eqb_append_cons_empty (c : ascii) (s1 s2 : string) :
  String.eqb (String c s1 +:+ s2) "" = false.
Proof. reflexivity. Qed.

Lemma eqb_newline_append (s : string) :
  String.eqb (newline +:+ s) "" = false.
Proof. reflexivity. Qed.

Section RolesProps.

Variable GlobalOrgID : Z.

Local Abbreviation userRolesFilter := (userRolesFilter GlobalOrgID).
Local Abbreviation UserRolesFilterCondition :=
  (UserRolesFilterCondition GlobalOrgID).
Local Abbreviation builtinRolesFilter := (builtinRolesFilter GlobalOrgID).
Local Abbreviation BuiltinRolesFilterCondition :=
  (BuiltinRolesFilterCondition GlobalOrgID).
Local Abbreviation UserRolesFilter := (UserRolesFilter GlobalOrgID).

Lemma teamRolesFilter_calm (orgID : Z) (teamIDs : list Z) :
  calm (teamRolesFilter orgID teamIDs).1.
Proof.
  unfold teamRolesFilter, TeamRolesFilderCondition.
  destruct (length teamIDs =? 0)%nat; [done|].
  rewrite eqb_append_cons_empty. cbn [fst]. calm_pieces.
Qed.

Lemma builtinRolesFilter_calm (orgID : Z) (roles : list string) :
  calm (builtinRolesFilter orgID roles).1.
Proof.
  unfold AccessControl.builtinRolesFilter, AccessControl.BuiltinRolesFilterCondition.
  destruct (length roles =? 0)%nat; [done|].
  rewrite eqb_append_cons_empty. cbn [fst]. calm_pieces.
Qed.

Lemma orClause_calm (acc ch : string * list iface) :
  calm acc.1 -> calm ch.1 -> calm (orClause acc ch).1.
Proof.
  destruct acc as [builder params], ch as [sql args]. cbn [fst].
  intros Hb Hs. unfold orClause.
  destruct (String.eqb sql ""); [done|].
  destruct (0 <? String.length builder)%nat; cbn [fst].
  - calm_pieces.
  - by apply calm_app.
Qed.

Lemma orClause_args (acc ch : string * list iface) :
  (ch.1 = "" -> ch.2 = []) -> (orClause acc ch).2 = acc.2 ++ ch.2.
Proof.
  destruct acc as [builder params], ch as [sql args]. cbn [fst snd].
  intros Hempty. unfold orClause.
  destruct (String.eqb_spec sql "") as [Heq|]; [|done].
  cbn. by rewrite Hempty, app_nil_r.
Qed.

Lemma teamRolesFilter_args (orgID : Z) (teamIDs : list Z) :
  (teamRolesFilter orgID teamIDs).2 = (TeamRolesFilderCondition orgID teamIDs).2
  /\ ((teamRolesFilter orgID teamIDs).1 = "" ->
      (teamRolesFilter orgID teamIDs).2 = []).
Proof.
  unfold teamRolesFilter, TeamRolesFilderCondition.
  destruct (length teamIDs =? 0)%nat; [done|].
  rewrite eqb_append_cons_empty. cbn [fst snd]. split; [done|].
  unfold newline. discriminate.
Qed.

Lemma builtinRolesFilter_args (orgID : Z) (roles : list string) :
  (builtinRolesFilter orgID roles).2
    = (BuiltinRolesFilterCondition orgID roles).2
  /\ ((builtinRolesFilter orgID roles).1 = "" ->
      (builtinRolesFilter orgID roles).2 = []).
Proof.
  unfold AccessControl.builtinRolesFilter, AccessControl.BuiltinRolesFilterCondition.
  destruct (length roles =? 0)%nat; [done|].
  rewrite eqb_append_cons_empty. cbn [fst snd]. split; [done|].
  unfold newline. discriminate.
Qed.

(** C8: with [userID = 0] the direct user-role channel gives no clause
    and no argument: [UserRolesFilter] joins the team and built-in
    channels alone, binds their arguments alone, and the subquery does
    not mention the [user_role] table, whatever the organization, the
    teams and the built-in roles. *)
Theorem UserRolesFilter_anonymous (orgID : Z) (teamIDs : list Z)
    (roles : list string) :
  UserRolesFilterCondition orgID 0 = ("", [])
  /\ userRolesFilter orgID 0 = ("", [])
  /\ (UserRolesFilter orgID 0 teamIDs roles).1
       = "INNER JOIN ("
         +:+ (orClause (orClause ("", []) (teamRolesFilter orgID teamIDs))
                       (builtinRolesFilter orgID roles)).1
         +:+ ") as all_role ON role.id = all_role.role_id"
  /\ (UserRolesFilter orgID 0 teamIDs roles).2
       = (TeamRolesFilderCondition orgID teamIDs).2
         ++ (BuiltinRolesFilterCondition orgID roles).2
  /\ ~ occurs "user_role" (UserRolesFilter orgID 0 teamIDs roles).1.
Proof.
  split; [done|]. split; [done|].
  assert (Hsql : (UserRolesFilter orgID 0 teamIDs roles).1
            = "INNER JOIN ("
              +:+ (orClause (orClause ("", []) (teamRolesFilter orgID teamIDs))
                            (builtinRolesFilter orgID roles)).1
              +:+ ") as all_role ON role.id = all_role.role_id") by done.
  split; [exact Hsql|]. split.
  - change ((UserRolesFilter orgID 0 teamIDs roles).2)
      with (orClause (orClause ("", []) (teamRolesFilter orgID teamIDs))
                     (builtinRolesFilter orgID roles)).2.
    destruct (teamRolesFilter_args orgID teamIDs) as [Ht Ht0].
    destruct (builtinRolesFilter_args orgID roles) as [Hb Hb0].
    rewrite !orClause_args by done. cbn [snd app]. by rewrite Ht, Hb.
  - rewrite Hsql. apply calm_not_occurs.
    assert (calm (orClause (orClause ("", []) (teamRolesFilter orgID teamIDs))
                           (builtinRolesFilter orgID roles)).1).
    { apply orClause_calm; [|apply builtinRolesFilter_calm].
      apply orClause_calm; [done|apply teamRolesFilter_calm]. }
    calm_pieces.
Qed.

Lemma orClause_extends (acc ch : string * list iface) :
  exists tail rest, orClause acc ch = (acc.1 +:+ tail, acc.2 ++ rest).
Proof.
  destruct acc as [builder params], ch as [sql args]. cbn [fst snd].
  unfold orClause. destruct (String.eqb sql "").
  - exists "", []. by rewrite append_empty_r, app_nil_r.
  - destruct (0 <? String.length builder)%nat.
    + exists (" OR " +:+ sql), args. by rewrite append_assoc.
    + by exists sql, args.
Qed.

Lemma userRolesFilter_real_user (orgID userID : Z) :
  userID <> 0%Z ->
  userRolesFilter orgID userID
    = (newline +:+ tab +:+ "SELECT ur.role_id" +:+ newline +:+ tab
       +:+ "FROM user_role AS ur" +:+ newline +:+ tab
       +:+ "WHERE ur.user_id = ? AND (ur.org_id = ? OR ur.org_id = 0)"
       +:+ newline +:+ tab,
       [Int64 userID; Int64 orgID; Int64 GlobalOrgID]).
Proof.
  intros Hne%Z.eqb_neq.
  unfold AccessControl.userRolesFilter, AccessControl.UserRolesFilterCondition.
  by rewrite Hne.
Qed.

(** For contrast, a real user's subquery reads the [user_role] table and
    binds the user ID first. *)
Lemma UserRolesFilter_real_user (orgID userID : Z) (teamIDs : list Z)
    (roles : list string) :
  userID <> 0%Z ->
  occurs "user_role" (UserRolesFilter orgID userID teamIDs roles).1
  /\ exists rest,
       (UserRolesFilter orgID userID teamIDs roles).2
         = Int64 userID :: Int64 orgID :: Int64 GlobalOrgID :: rest.
Proof.
  intros Hne.
  assert (Hout : exists tail rest,
            UserRolesFilter orgID userID teamIDs roles
              = ("INNER JOIN (" +:+ ((userRolesFilter orgID userID).1 +:+ tail)
                 +:+ ") as all_role ON role.id = all_role.role_id",
                 (userRolesFilter orgID userID).2 ++ rest)).
  { unfold AccessControl.UserRolesFilter.
    rewrite userRolesFilter_real_user by done.
    rewrite !eqb_newline_append. cbn [app fst snd].
    match goal with
    | |- context [orClause (orClause ?acc ?team) ?builtin] =>
        destruct (orClause_extends acc team) as (t1 & r1 & E1); rewrite E1;
        destruct (orClause_extends (acc.1 +:+ t1, acc.2 ++ r1) builtin)
          as (t2 & r2 & E2); rewrite E2; clear E1 E2
    end.
    exists (t1 +:+ t2), (r1 ++ r2). cbn [fst snd].
    rewrite !append_assoc. reflexivity. }
  destruct Hout as (tail & rest & ->).
  rewrite userRolesFilter_real_user by done. cbn [fst snd].
  split; [|by eexists].
  exists ("INNER JOIN (" +:+ newline +:+ tab +:+ "SELECT ur.role_id"
          +:+ newline +:+ tab +:+ "FROM "),
         (" AS ur" +:+ newline +:+ tab
          +:+ "WHERE ur.user_id = ? AND (ur.org_id = ? OR ur.org_id = 0)"
          +:+ newline +:+ tab +:+ tail
          +:+ ") as all_role ON role.id = all_role.role_id").
  rewrite !append_assoc. reflexivity.
Qed.

End RolesProps.

(** * The properties on sample callers *)

Lemma map_to_list_perm (m : gmap iface nat) : map_to_list m ≡ₚ map_to_list m.
Proof. reflexivity. Defined.

Lemma t_id_accepted : "t.id" ∈ sqlIDAcceptList.
Proof. refine (bool_decide_unpack _ _). vm_compute. exact I. Defined.

Lemma role_name_not_accepted : "role.name" ∉ sqlIDAcceptList.
Proof. refine (bool_decide_unpack _ _). vm_compute. exact I. Defined.

Lemma Filter_column_not_accepted_witness :
  ("role.name" ∉ sqlIDAcceptList)
  /\ (stockFilter (Some (userWithPermissions teamPermissions))
        "role.name" "teams:id:" ["teams:create"]).1 = denyQuery
  /\ (stockFilter (Some (userWithPermissions teamPermissions))
        "role.name" "teams:id:" ["teams:create"]).2 <> None.
Proof.
  split; [exact role_name_not_accepted|].
  destruct (Filter_column_not_accepted sqlIDAcceptList
              specWildcardsFromPrefix map_to_list
              (Some (userWithPermissions teamPermissions))
              "role.name" "teams:id:" ["teams:create"]
              role_name_not_accepted) as (Hdeny & _ & _ & Herr).
  split; [exact Hdeny|exact Herr].
Defined.

Lemma Filter_missing_permissions_witness :
  Permissions (mkSignedInUser 2 (Some {[ 1%Z := Some teamPermissions ]}))
    = Some {[ 1%Z := Some teamPermissions ]}
  /\ ({[ 1%Z := Some teamPermissions ]}
        : gmap Z (option (gmap string (list string)))) !! 2%Z = None
  /\ (stockFilter (Some (mkSignedInUser 2 (Some {[ 1%Z := Some teamPermissions ]})))
        "t.id" "teams:id:" ["teams:read"]).1 = denyQuery
  /\ (stockFilter (Some (mkSignedInUser 2 (Some {[ 1%Z := Some teamPermissions ]})))
        "t.id" "teams:id:" ["teams:read"]).2 <> None.
Proof.
  assert (Hentry : ({[ 1%Z := Some teamPermissions ]}
            : gmap Z (option (gmap string (list string)))) !! 2%Z = None)
    by reflexivity.
  split; [reflexivity|]. split; [exact Hentry|].
  apply (Filter_missing_permissions sqlIDAcceptList specWildcardsFromPrefix
           map_to_list).
  right. eexists. split; [reflexivity|]. right.
  eexists. split; [reflexivity|]. left. exact Hentry.
Defined.

Lemma Filter_empty_action_witness :
  "t.id" ∈ sqlIDAcceptList
  /\ orgPermissions (Some (userWithPermissions teamPermissions))
       = Some teamPermissions
  /\ "teams:delete" ∈ ["teams:read"; "teams:delete"; "teams:create"]
  /\ ParseScopes specWildcardsFromPrefix "teams:id:"
       (scopesOf teamPermissions "teams:delete") = (∅, false)
  /\ stockFilter (Some (userWithPermissions teamPermissions)) "t.id"
       "teams:id:" ["teams:read"; "teams:delete"; "teams:create"]
     = (denyQuery, None).
Proof.
  assert (Hin : "teams:delete" ∈ ["teams:read"; "teams:delete"; "teams:create"])
    by (right; left).
  assert (Hres : ParseScopes specWildcardsFromPrefix "teams:id:"
                   (scopesOf teamPermissions "teams:delete") = (∅, false))
    by (vm_compute; reflexivity).
  split; [exact t_id_accepted|]. split; [reflexivity|].
  split; [exact Hin|]. split; [exact Hres|].
  exact (Filter_empty_action sqlIDAcceptList specWildcardsFromPrefix
           map_to_list (Some (userWithPermissions teamPermissions)) "t.id"
           "teams:id:" _ teamPermissions "teams:delete"
           t_id_accepted eq_refl Hin Hres).
Defined.

Lemma Filter_all_wildcards_witness :
  "t.id" ∈ sqlIDAcceptList
  /\ orgPermissions (Some (userWithPermissions teamPermissions))
       = Some teamPermissions
  /\ (forall a, a ∈ ["teams:create"; "teams:permissions:read"] ->
        exists scope, scope ∈ scopesOf teamPermissions a
          /\ Contains (specWildcardsFromPrefix "teams:id:") scope = true)
  /\ stockFilter (Some (userWithPermissions teamPermissions)) "t.id"
       "teams:id:" ["teams:create"; "teams:permissions:read"]
     = (allowAllQuery, None).
Proof.
  assert (Hwild : forall a, a ∈ ["teams:create"; "teams:permissions:read"] ->
            exists scope, scope ∈ scopesOf teamPermissions a
              /\ Contains (specWildcardsFromPrefix "teams:id:") scope = true).
  { intros a Hin. apply elem_of_cons in Hin as [->|Hin].
    - exists "teams:*". split; [left|reflexivity].
    - apply list_elem_of_singleton in Hin as ->.
      exists "teams:id:*". split; [left|reflexivity]. }
  split; [exact t_id_accepted|]. split; [reflexivity|]. split; [exact Hwild|].
  exact (proj1 (Filter_all_wildcards sqlIDAcceptList specWildcardsFromPrefix
                  map_to_list (Some (userWithPermissions teamPermissions))
                  "t.id" "teams:id:" _ teamPermissions
                  t_id_accepted eq_refl Hwild)).
Defined.

Lemma Filter_no_actions_witness :
  "t.id" ∈ sqlIDAcceptList
  /\ orgPermissions (Some (userWithPermissions teamReader)) = Some teamReader
  /\ stockFilter (Some (userWithPermissions teamReader)) "t.id" "teams:id:" []
     = (allowAllQuery, None).
Proof.
  split; [exact t_id_accepted|]. split; [reflexivity|].
  exact (Filter_no_actions sqlIDAcceptList specWildcardsFromPrefix map_to_list
           (Some (userWithPermissions teamReader)) "t.id" "teams:id:"
           teamReader t_id_accepted eq_refl).
Defined.

Lemma Filter_intersection_witness :
  "t.id" ∈ sqlIDAcceptList
  /\ orgPermissions (Some (userWithPermissions teamPermissions))
       = Some teamPermissions
  /\ ParseScopes specWildcardsFromPrefix "teams:id:"
       (scopesOf teamPermissions "teams:read")
     = ({[Int64 1; Int64 2; Int64 3]}, false)
  /\ ParseScopes specWildcardsFromPrefix "teams:id:"
       (scopesOf teamPermissions "teams:write")
     = ({[Int64 2; Int64 3; Int64 4]}, false)
  /\ (stockFilter (Some (userWithPermissions teamPermissions)) "t.id"
        "teams:id:" ["teams:read"; "teams:write"]).2 = None
  /\ Where (stockFilter (Some (userWithPermissions teamPermissions)) "t.id"
              "teams:id:" ["teams:read"; "teams:write"]).1
     = " t.id IN (?,?)"
  /\ Args (stockFilter (Some (userWithPermissions teamPermissions)) "t.id"
             "teams:id:" ["teams:read"; "teams:write"]).1
     ≡ₚ [Int64 2; Int64 3]
  /\ Str "abc"
       ∈ Args (stockFilter (Some (userWithPermissions dashboardPermissions))
                 "dashboard.uid" "dashboards:uid:"
                 ["dashboards:read"; "dashboards:write"]).1
  /\ exists perms,
       orgPermissions (Some (userWithPermissions dashboardPermissions))
         = Some perms
       /\ forall a, a ∈ ["dashboards:read"; "dashboards:write"] ->
            grants specWildcardsFromPrefix "dashboards:uid:" perms a
              (Str "abc").
Proof.
  assert (H1 : ParseScopes specWildcardsFromPrefix "teams:id:"
                 (scopesOf teamPermissions "teams:read")
               = ({[Int64 1; Int64 2; Int64 3]}, false))
    by (vm_compute; reflexivity).
  assert (H2 : ParseScopes specWildcardsFromPrefix "teams:id:"
                 (scopesOf teamPermissions "teams:write")
               = ({[Int64 2; Int64 3; Int64 4]}, false))
    by (vm_compute; reflexivity).
  assert (Hin : Str "abc"
            ∈ Args (stockFilter
                      (Some (userWithPermissions dashboardPermissions))
                      "dashboard.uid" "dashboards:uid:"
                      ["dashboards:read"; "dashboards:write"]).1).
  { refine (bool_decide_unpack _ _). vm_compute. exact I. }
  destruct (Filter_intersection sqlIDAcceptList specWildcardsFromPrefix
              map_to_list map_to_list_perm) as [Hexample Hgeneral].
  destruct (Hexample (Some (userWithPermissions teamPermissions)) "t.id"
              "teams:id:" teamPermissions "teams:read" "teams:write"
              t_id_accepted eq_refl H1 H2) as (Herr & Hw & Hargs & _).
  split; [exact t_id_accepted|]. split; [reflexivity|].
  split; [exact H1|]. split; [exact H2|].
  split; [exact Herr|]. split; [exact Hw|]. split; [exact Hargs|].
  split; [exact Hin|].
  exact (Hgeneral (Some (userWithPermissions dashboardPermissions))
           "dashboard.uid" "dashboards:uid:"
           ["dashboards:read"; "dashboards:write"] (Str "abc") Hin).
Defined.

Lemma Filter_wildcard_and_ids_witness :
  "t.id" ∈ sqlIDAcceptList
  /\ orgPermissions (Some (userWithPermissions teamPermissions))
       = Some teamPermissions
  /\ (ParseScopes specWildcardsFromPrefix "teams:id:"
        (scopesOf teamPermissions "teams:create")).2 = true
  /\ ParseScopes specWildcardsFromPrefix "teams:id:"
       (scopesOf teamPermissions "teams:permissions:write")
     = ({[Int64 5]}, false)
  /\ stockFilter (Some (userWithPermissions teamPermissions)) "t.id"
       "teams:id:" ["teams:create"; "teams:permissions:write"]
     = (mkSQLFilter " t.id IN (?)" [Int64 5], None).
Proof.
  assert (H2 : ParseScopes specWildcardsFromPrefix "teams:id:"
                 (scopesOf teamPermissions "teams:permissions:write")
               = ({[Int64 5]}, false))
    by (vm_compute; reflexivity).
  split; [exact t_id_accepted|]. split; [reflexivity|].
  split; [reflexivity|]. split; [exact H2|].
  exact (proj1 (Filter_wildcard_and_ids sqlIDAcceptList
                  specWildcardsFromPrefix map_to_list map_to_list_perm
                  (Some (userWithPermissions teamPermissions)) "t.id"
                  "teams:id:" teamPermissions
                  "teams:create" "teams:permissions:write"
                  t_id_accepted eq_refl eq_refl H2)).
Defined.

Lemma Filter_teams_read_witness :
  "t.id" ∈ sqlIDAcceptList
  /\ Contains (specWildcardsFromPrefix "teams:id:") "teams:id:5" = false
  /\ Contains (specWildcardsFromPrefix "teams:id:") "teams:id:9" = false
  /\ teamReader !! "teams:read" = Some ["teams:id:5"; "teams:id:9"]
  /\ (stockFilter (Some (userWithPermissions teamReader)) "t.id" "teams:id:"
        ["teams:read"]).2 = None
  /\ Where (stockFilter (Some (userWithPermissions teamReader)) "t.id"
              "teams:id:" ["teams:read"]).1 = " t.id IN (?,?)"
  /\ Args (stockFilter (Some (userWithPermissions teamReader)) "t.id"
             "teams:id:" ["teams:read"]).1 ≡ₚ [Int64 5; Int64 9].
Proof.
  split; [exact t_id_accepted|]. split; [reflexivity|]. split; [reflexivity|].
  split; [reflexivity|].
  destruct (Filter_teams_read sqlIDAcceptList specWildcardsFromPrefix
              map_to_list map_to_list_perm (userWithPermissions teamReader)
              {[ 1%Z := Some teamReader ]} teamReader
              t_id_accepted eq_refl eq_refl eq_refl eq_refl eq_refl)
    as (Herr & Hw & Hargs & _).
  split; [exact Herr|]. split; [exact Hw|exact Hargs].
Defined.

Lemma ParseScopes_dashboards_witness :
  Forall (fun scope =>
            Contains (specWildcardsFromPrefix "dashboards:uid:") scope = false)
    ["dashboards:uid:7"; "dashboards:uid:notanumber"; "other:uid:9"]
  /\ Forall (fun scope =>
            Contains (specWildcardsFromPrefix "dashboards:id:") scope = false)
    ["dashboards:id:7"; "dashboards:id:notanumber"; "other:id:9"]
  /\ ParseScopes specWildcardsFromPrefix "dashboards:uid:"
       ["dashboards:uid:7"; "dashboards:uid:notanumber"; "other:uid:9"]
     = ({[Str "7"; Str "notanumber"]}, false)
  /\ ParseScopes specWildcardsFromPrefix "dashboards:id:"
       ["dashboards:id:7"; "dashboards:id:notanumber"; "other:id:9"]
     = ({[Int64 7]}, false).
Proof.
  assert (Huid : Forall (fun scope =>
            Contains (specWildcardsFromPrefix "dashboards:uid:") scope = false)
            ["dashboards:uid:7"; "dashboards:uid:notanumber"; "other:uid:9"])
    by (repeat constructor).
  assert (Hid : Forall (fun scope =>
            Contains (specWildcardsFromPrefix "dashboards:id:") scope = false)
            ["dashboards:id:7"; "dashboards:id:notanumber"; "other:id:9"])
    by (repeat constructor).
  split; [exact Huid|]. split; [exact Hid|].
  exact (ParseScopes_dashboards specWildcardsFromPrefix Huid Hid).
Defined.

(** The call of C9 as the claim states it: with the wildcards of the
    specification, the result is not the integer set [{7}], nor the
    string set [{"7"}]: the non-numeric identifier is kept, as a
    string. *)
Lemma ParseScopes_dashboards_uid_not_integer :
  ParseScopes specWildcardsFromPrefix "dashboards:uid:"
    ["dashboards:uid:7"; "dashboards:uid:notanumber"; "other:uid:9"]
    <> ({[Int64 7]}, false)
  /\ ParseScopes specWildcardsFromPrefix "dashboards:uid:"
       ["dashboards:uid:7"; "dashboards:uid:notanumber"; "other:uid:9"]
     <> ({[Str "7"]}, false)
  /\ Str "notanumber"
       ∈ (ParseScopes specWildcardsFromPrefix "dashboards:uid:"
            ["dashboards:uid:7"; "dashboards:uid:notanumber"; "other:uid:9"]).1.
Proof.
  assert (Hin : Str "notanumber"
            ∈ (ParseScopes specWildcardsFromPrefix "dashboards:uid:"
                 ["dashboards:uid:7"; "dashboards:uid:notanumber";
                  "other:uid:9"]).1).
  { refine (bool_decide_unpack _ _). vm_compute. exact I. }
  split; [|split; [|exact Hin]]; intros Heq; rewrite Heq in Hin;
    cbn [fst] in Hin; apply elem_of_singleton in Hin; discriminate Hin.
Qed.


(** * Further properties *)

(** ** Attributes of a scope *)

Lemma HasPrefix_true (s prefix : string) :
  HasPrefix s prefix = true <-> exists rest, s = prefix +:+ rest.
Proof.
  revert s. induction prefix as [|p prefix IH]; intros s.
  - split; [intros _; by exists s|intros _; by destruct s].
  - destruct s as [|c s]; cbn [HasPrefix].
    + split; [done|]. intros (rest & Hrest). discriminate Hrest.
    + rewrite andb_true_iff, IH. split.
      * intros [Hc (rest & ->)]. apply Ascii.eqb_eq in Hc as ->. by exists rest.
      * intros (rest & Heq). injection Heq as -> ->.
        split; [apply Ascii.eqb_refl|by exists rest].
Qed.

Lemma LastIndex_from_last_colon (s : string) (pos found : Z) :
  LastIndex_from s ":" pos found
    = match last_colon s with
      | Some i => (pos + Z.of_nat i)%Z
      | None => found
      end.
Proof.
  revert pos found. induction s as [|c s IH]; intros pos found; [done|].
  cbn [LastIndex_from last_colon]. rewrite IH.
  destruct (last_colon s) as [i|]; [lia|].
  destruct (Ascii.eqb c ":"); lia.
Qed.

Lemma last_colon_occurs (s : string) :
  occurs ":" s -> last_colon s <> None.
Proof.
  intros (before & after & ->).
  induction before as [|c before IH].
  - change ("" +:+ ":" +:+ after) with (String ":" after).
    cbn [last_colon]. by destruct (last_colon after).
  - change (String c before +:+ ":" +:+ after)
      with (String c (before +:+ ":" +:+ after)).
    cbn [last_colon]. by destruct (last_colon (before +:+ ":" +:+ after)).
Qed.

Lemma slice_from_0 (s : string) : slice_from s 0 = s.
Proof.
  unfold slice_from. change (Z.to_nat 0) with 0%nat. rewrite Nat.sub_0_r.
  induction s as [|c s IH]; [done|]. cbn. by rewrite IH.
Qed.

(** The attribute of [String c s] in terms of the attribute of [s]. *)
Lemma attribute_cons (c : ascii) (s : string) :
  slice_from (String c s) (LastIndex (String c s) ":" + 1)
    = match last_colon s with
      | Some _ => slice_from s (LastIndex s ":" + 1)
      | None => if Ascii.eqb c ":" then s else String c s
      end.
Proof.
  unfold LastIndex. rewrite !LastIndex_from_last_colon. cbn [last_colon].
  destruct (last_colon s) as [i|] eqn:Hs.
  - unfold slice_from.
    replace (Z.to_nat (0 + Z.of_nat (S i) + 1)) with (S (S i)) by lia.
    replace (Z.to_nat (0 + Z.of_nat i + 1)) with (S i) by lia.
    reflexivity.
  - destruct (Ascii.eqb c ":").
    + unfold slice_from. change (Z.to_nat (0 + Z.of_nat 0 + 1)) with 1%nat.
      cbn [String.length String.substring Nat.sub].
      apply (slice_from_0 s).
    + apply slice_from_0.
Qed.

(** What both attribute parsers read: the part of the scope after its
    last colon, the whole scope when it has none. *)
Lemma attribute_split (scope : string) :
  exists before,
    scope = before +:+ slice_from scope (LastIndex scope ":" + 1)
    /\ last_colon (slice_from scope (LastIndex scope ":" + 1)) = None
    /\ (before = "" \/ exists b, before = b +:+ ":").
Proof.
  induction scope as [|c scope IH].
  - exists "". by repeat split; [..|left].
  - rewrite attribute_cons. destruct IH as (before & Heq & Hno & Hbefore).
    destruct (last_colon scope) as [i|] eqn:Hs.
    + exists (String c before). split; [|split; [done|]].
      * change (String c before +:+ ?x) with (String c (before +:+ x)).
        by rewrite <- Heq.
      * right. destruct Hbefore as [->|(b & ->)].
        -- change ("" +:+ ?x) with x in Heq. rewrite <- Heq in Hno. congruence.
        -- by exists (String c b).
    + destruct (Ascii.eqb_spec c ":") as [->|Hc].
      * exists ":". split; [done|]. split; [done|]. right. by exists "".
      * exists "". split; [done|]. split; [|by left].
        cbn [last_colon]. rewrite Hs.
        by destruct (Ascii.eqb_spec c ":").
Qed.

Lemma digit_range (c : ascii) (d : Z) : digit c = Some d -> (0 <= d <= 9)%Z.
Proof.
  unfold digit. destruct (_ && _) eqn:Hc; [|done].
  apply andb_true_iff in Hc as [?%Z.leb_le ?%Z.leb_le]. intros [= <-]. lia.
Qed.

Lemma ParseUint_from_nonneg (s : string) (acc n : Z) :
  (0 <= acc)%Z -> ParseUint_from s acc = Some n -> (0 <= n)%Z.
Proof.
  revert acc. induction s as [|c s IH]; intros acc Hacc; cbn.
  - intros [= <-]. done.
  - destruct (digit c) as [d|] eqn:Hd; [|done].
    apply digit_range in Hd. apply IH. lia.
Qed.

Lemma ParseInt_range (s : string) (n : Z) :
  ParseInt s = Some n -> int64_range n.
Proof.
  unfold ParseInt, int64_range. destruct s as [|c s]; [done|].
  destruct (if Ascii.eqb c "+" then _ else _) as [neg body].
  destruct (ParseUint body) as [un|] eqn:Hun; [|done].
  assert (0 <= un)%Z.
  { unfold ParseUint in Hun. destruct body; [done|].
    by eapply ParseUint_from_nonneg in Hun. }
  destruct neg; cbn [negb andb].
  - destruct (2 ^ 63 <? un)%Z eqn:Hc; [done|].
    apply Z.ltb_ge in Hc. intros [= <-]. lia.
  - destruct (2 ^ 63 <=? un)%Z eqn:Hc; [done|].
    apply Z.leb_gt in Hc. intros [= <-]. lia.
Qed.

(** X1: the string parser never fails; what it returns, and what the
    integer parser returns when it succeeds, is read from the part of the
    scope after its last colon (the whole scope when there is none), so a
    string identifier holds no colon, and an integer identifier is within
    the 64-bit range. *)
Theorem parseAttribute_after_last_colon (scope : string) :
  exists before attr,
    scope = before +:+ attr
    /\ ~ occurs ":" attr
    /\ (before = "" \/ exists b, before = b +:+ ":")
    /\ parseStringAttribute scope = Some (Str attr)
    /\ parseIntAttribute scope = Int64 <$> ParseInt attr
    /\ (forall id, parseIntAttribute scope = Some id ->
          exists n, id = Int64 n /\ int64_range n).
Proof.
  destruct (attribute_split scope) as (before & Heq & Hno & Hbefore).
  exists before, (slice_from scope (LastIndex scope ":" + 1)).
  split; [done|]. split; [|split; [done|]].
  - intros Ho%last_colon_occurs. congruence.
  - split; [done|]. split; [done|].
    unfold parseIntAttribute. intros id.
    destruct (ParseInt _) as [n|] eqn:Hn; [|done].
    intros [= <-]. exists n. split; [done|]. by apply ParseInt_range in Hn.
Qed.

Lemma attributeParser_typed (prefix scope : string) (id : iface) :
  attributeParser prefix scope = Some id ->
  if HasSuffix prefix ":id:"
  then exists n, id = Int64 n /\ int64_range n
  else exists attr, id = Str attr /\ ~ occurs ":" attr.
Proof.
  unfold attributeParser. destruct (HasSuffix prefix ":id:"); intros Hparse.
  - unfold parseIntAttribute in Hparse.
    destruct (ParseInt _) as [n|] eqn:Hn; [|done].
    injection Hparse as <-. exists n. split; [done|].
    by apply ParseInt_range in Hn.
  - injection Hparse as <-. eexists. split; [done|].
    destruct (attribute_split scope) as (_ & _ & Hno & _).
    intros Ho%last_colon_occurs. congruence.
Qed.

Lemma count_byte_app (c : ascii) (s1 s2 : string) :
  count_byte c (s1 +:+ s2) = (count_byte c s1 + count_byte c s2)%nat.
Proof.
  induction s1 as [|c1 s1 IH]; [done|].
  change (String c1 s1 +:+ s2) with (String c1 (s1 +:+ s2)).
  cbn [count_byte]. rewrite IH. lia.
Qed.

Lemma count_byte_Repeat (c : ascii) (s : string) (n : nat) :
  count_byte c (Repeat s n) = (n * count_byte c s)%nat.
Proof.
  induction n as [|n IH]; [done|].
  cbn [Repeat]. rewrite count_byte_app, IH. lia.
Qed.

(** ** Scopes of one action *)

Lemma Contains_true (wildcards : Wildcards) (scope : string) :
  Contains wildcards scope = true <-> scope ∈ wildcards.
Proof.
  unfold Contains. rewrite existsb_exists. split.
  - intros (w & Hin & ->%String.eqb_eq). by apply list_elem_of_In.
  - intros Hin. exists scope. split; [by apply list_elem_of_In|].
    apply String.eqb_refl.
Qed.

Lemma Contains_false (wildcards : Wildcards) (scope : string) :
  Contains wildcards scope = false <-> scope ∉ wildcards.
Proof.
  rewrite <- Contains_true. destruct (Contains wildcards scope); split;
    congruence.
Qed.

Lemma ParseScopes_loop_wildcard_empty parser (wildcards : Wildcards)
    (prefix : string) (scopes : list string) (ids : gset iface) :
  (ParseScopes_loop parser wildcards prefix scopes ids).2 = true ->
  (ParseScopes_loop parser wildcards prefix scopes ids).1 = ∅.
Proof.
  revert ids. induction scopes as [|scope scopes IH]; intros ids; [done|].
  cbn [AccessControl.ParseScopes_loop].
  destruct (Contains wildcards scope); [done|].
  destruct (HasPrefix scope prefix); [|apply IH].
  destruct (parser scope); apply IH.
Qed.

Lemma ParseScopes_loop_ids parser (wildcards : Wildcards)
    (prefix : string) (scopes : list string) (ids : gset iface) :
  (forall scope, scope ∈ scopes -> Contains wildcards scope = false) ->
  (ParseScopes_loop parser wildcards prefix scopes ids).2 = false
  /\ forall id,
       id ∈ (ParseScopes_loop parser wildcards prefix scopes ids).1
       <-> id ∈ ids
           \/ exists scope, scope ∈ scopes
                /\ HasPrefix scope prefix = true
                /\ parser scope = Some id.
Proof.
  revert ids. induction scopes as [|scope scopes IH]; intros ids Hno.
  - split; [done|]. intros id. cbn. split; [by left|].
    intros [?|(s & Hin & _)]; [done|]. by apply elem_of_nil in Hin.
  - cbn [AccessControl.ParseScopes_loop].
    rewrite (Hno scope) by left.
    assert (Hno' : forall s, s ∈ scopes -> Contains wildcards s = false).
    { intros s Hin. apply Hno. by right. }
    destruct (HasPrefix scope prefix) eqn:Hp;
      [destruct (parser scope) as [id0|] eqn:Hparse|].
    + destruct (IH ({[id0]} ∪ ids) Hno') as [Hw Hids]. split; [done|].
      intros id. rewrite Hids, elem_of_union, elem_of_singleton. split.
      * intros [[->|?]|(s & Hin & ?)]; [right|by left|right].
        -- exists scope. split; [by left|done].
        -- exists s. split; [by right|done].
      * intros [?|(s & [->|Hin]%elem_of_cons & Hs1 & Hs2)];
          [by left; right|left; left; congruence|right; eauto].
    + destruct (IH ids Hno') as [Hw Hids]. split; [done|].
      intros id. rewrite Hids. split.
      * intros [?|(s & Hin & ?)]; [by left|right].
        exists s. split; [by right|done].
      * intros [?|(s & [->|Hin]%elem_of_cons & Hs1 & Hs2)];
          [by left|congruence|right; eauto].
    + destruct (IH ids Hno') as [Hw Hids]. split; [done|].
      intros id. rewrite Hids. split.
      * intros [?|(s & Hin & ?)]; [by left|right].
        exists s. split; [by right|done].
      * intros [?|(s & [->|Hin]%elem_of_cons & Hs1 & Hs2)];
          [by left|congruence|right; eauto].
Qed.

Section ScopeProps.

Variable WildcardsFromPrefix : string -> Wildcards.

Local Abbreviation ParseScopes := (ParseScopes WildcardsFromPrefix).

Implicit Types (prefix scope : string) (scopes : list string) (id : iface).

Lemma ParseScopes_eq prefix scopes :
  ParseScopes prefix scopes
    = ParseScopes_loop (attributeParser prefix) (WildcardsFromPrefix prefix)
        prefix scopes ∅.
Proof. reflexivity. Qed.

Lemma ParseScopes_no_wildcard prefix scopes :
  (ParseScopes prefix scopes).2 = false
  <-> forall scope, scope ∈ scopes -> scope ∉ WildcardsFromPrefix prefix.
Proof.
  rewrite <- not_true_iff_false, ParseScopes_wildcard. split.
  - intros Hno scope Hin Hw%Contains_true. apply Hno. eauto.
  - intros Hno (scope & Hin & Hw%Contains_true). by apply (Hno scope).
Qed.

(** X2: [ParseScopes] reports a wildcard exactly when one of the scopes
    is equal to a wildcard of the prefix, and it then returns no
    identifier, whatever the other scopes are. *)
Theorem ParseScopes_hasWildcard prefix scopes :
  ((ParseScopes prefix scopes).2 = true
   <-> exists scope, scope ∈ scopes /\ scope ∈ WildcardsFromPrefix prefix)
  /\ ((ParseScopes prefix scopes).2 = true ->
      (ParseScopes prefix scopes).1 = ∅).
Proof.
  split.
  - rewrite ParseScopes_wildcard. split; intros (scope & Hin & Hw);
      exists scope; (split; [done|]); by apply Contains_true.
  - apply ParseScopes_loop_wildcard_empty.
Qed.

Lemma ParseScopes_elem_of prefix scopes id :
  id ∈ (ParseScopes prefix scopes).1
  <-> (forall scope, scope ∈ scopes -> scope ∉ WildcardsFromPrefix prefix)
      /\ exists scope, scope ∈ scopes
           /\ HasPrefix scope prefix = true
           /\ attributeParser prefix scope = Some id.
Proof.
  pose proof (ParseScopes_no_wildcard prefix scopes) as Hnw.
  rewrite ParseScopes_eq in *.
  destruct ((ParseScopes_loop _ _ _ _ _).2) eqn:Hw.
  - rewrite (ParseScopes_loop_wildcard_empty _ _ _ _ _ Hw). split.
    + by intros ?%not_elem_of_empty.
    + intros [Hno _]. apply Hnw in Hno. congruence.
  - pose proof (proj1 Hnw eq_refl) as Hno.
    destruct (ParseScopes_loop_ids (attributeParser prefix)
                (WildcardsFromPrefix prefix) prefix scopes ∅) as [_ Hids].
    { intros scope Hin. by apply Contains_false, Hno. }
    rewrite Hids. split.
    + intros [?%not_elem_of_empty|?]; [done|by split].
    + intros [_ ?]. by right.
Qed.

(** X3: an identifier is returned by [ParseScopes] exactly when no scope
    is a wildcard of the prefix and some scope extends the prefix and
    its attribute parses to the identifier, under the parser selected by
    the prefix.  Scopes with another prefix, scopes whose attribute does
    not parse, repetitions and the order of the scopes play no part. *)
Theorem ParseScopes_ids prefix scopes id :
  id ∈ (ParseScopes prefix scopes).1
  <-> (forall scope, scope ∈ scopes -> scope ∉ WildcardsFromPrefix prefix)
      /\ exists rest, prefix +:+ rest ∈ scopes
           /\ attributeParser prefix (prefix +:+ rest) = Some id.
Proof.
  rewrite ParseScopes_elem_of. split; intros [Hno Hex]; (split; [done|]).
  - destruct Hex as (scope & Hin & (rest & ->)%HasPrefix_true & Hparse).
    by exists rest.
  - destruct Hex as (rest & Hin & Hparse). exists (prefix +:+ rest).
    split; [done|]. split; [|done]. apply HasPrefix_true. by exists rest.
Qed.

(** X4: [ParseScopes] depends on the set of scopes only: two scope lists
    with the same members give the same identifiers and the same
    wildcard flag. *)
Theorem ParseScopes_same_scopes prefix scopes1 scopes2 :
  (forall scope, scope ∈ scopes1 <-> scope ∈ scopes2) ->
  ParseScopes prefix scopes1 = ParseScopes prefix scopes2.
Proof.
  intros Hsame.
  assert (Hw : (ParseScopes prefix scopes1).2 = (ParseScopes prefix scopes2).2).
  { apply eq_true_iff_eq. rewrite !ParseScopes_wildcard.
    split; intros (scope & Hin & Hc); exists scope;
      (split; [by apply Hsame|done]). }
  assert (Hids : (ParseScopes prefix scopes1).1 = (ParseScopes prefix scopes2).1).
  { apply set_eq. intros id. rewrite !ParseScopes_elem_of.
    split; intros [Hno (scope & Hin & Hs)]; (split;
      [intros s Hs'; by apply Hno, Hsame
      |exists scope; split; [by apply Hsame|done]]). }
  destruct (ParseScopes prefix scopes1), (ParseScopes prefix scopes2).
  cbn in *. by subst.
Qed.

(** X5: the identifiers of one call have one type, selected by the
    prefix: 64-bit integers within range when the prefix ends in [":id:"],
    otherwise strings that hold no colon. *)
Theorem ParseScopes_ids_typed prefix scopes id :
  id ∈ (ParseScopes prefix scopes).1 ->
  if HasSuffix prefix ":id:"
  then exists n, id = Int64 n /\ int64_range n
  else exists attr, id = Str attr /\ ~ occurs ":" attr.
Proof.
  intros (_ & scope & _ & _ & Hparse)%ParseScopes_elem_of.
  by apply attributeParser_typed in Hparse.
Qed.

End ScopeProps.

Lemma ParseScopes_same_scopes_witness :
  (forall scope,
     scope ∈ ["teams:id:5"; "teams:id:9"; "teams:id:5"; "dashboards:uid:x"]
     <-> scope ∈ ["dashboards:uid:x"; "teams:id:9"; "teams:id:5"])
  /\ ParseScopes specWildcardsFromPrefix "teams:id:"
       ["teams:id:5"; "teams:id:9"; "teams:id:5"; "dashboards:uid:x"]
     = ParseScopes specWildcardsFromPrefix "teams:id:"
         ["dashboards:uid:x"; "teams:id:9"; "teams:id:5"].
Proof.
  assert (Hsame : forall scope,
     scope ∈ ["teams:id:5"; "teams:id:9"; "teams:id:5"; "dashboards:uid:x"]
     <-> scope ∈ ["dashboards:uid:x"; "teams:id:9"; "teams:id:5"]).
  { intros scope. rewrite !elem_of_cons, !elem_of_nil. tauto. }
  split; [exact Hsame|].
  exact (ParseScopes_same_scopes specWildcardsFromPrefix "teams:id:" _ _ Hsame).
Defined.

Lemma ParseScopes_ids_typed_witness :
  Int64 9 ∈ (ParseScopes specWildcardsFromPrefix "teams:id:"
               ["teams:id:5"; "teams:id:nine"; "teams:id:9"]).1
  /\ exists n, Int64 9 = Int64 n /\ int64_range n.
Proof.
  assert (Hin : Int64 9 ∈ (ParseScopes specWildcardsFromPrefix "teams:id:"
                             ["teams:id:5"; "teams:id:nine"; "teams:id:9"]).1).
  { refine (bool_decide_unpack _ _). vm_compute. exact I. }
  split; [exact Hin|].
  exact (ParseScopes_ids_typed specWildcardsFromPrefix "teams:id:" _ _ Hin).
Defined.

(** ** The outcomes of [Filter] *)

Section FilterOutcomes.

Variable acceptList : gset string.
Variable WildcardsFromPrefix : string -> Wildcards.
Variable rangeMap : gmap iface nat -> list (iface * nat).

Hypothesis rangeMap_perm : forall m, rangeMap m ≡ₚ map_to_list m.

Local Abbreviation ParseScopes := (ParseScopes WildcardsFromPrefix).
Local Abbreviation Filter_loop := (Filter_loop WildcardsFromPrefix).
Local Abbreviation resolves := (resolves WildcardsFromPrefix).
Local Abbreviation grants := (grants WildcardsFromPrefix).
Local Abbreviation Filter := (Filter acceptList WildcardsFromPrefix rangeMap).

Implicit Types (prefix sqlID a : string) (actions : list string).
Implicit Types (perms : gmap string (list string)) (id : iface).
Implicit Types (user : option SignedInUser).

(** All the actions of a list are wildcarded. *)
Local Abbreviation all_wildcarded prefix perms actions :=
  (forall a, a ∈ actions -> (resolves prefix perms a).2 = true).

Lemma all_wildcarded_dec prefix perms actions :
  all_wildcarded prefix perms actions
  \/ exists a, a ∈ actions /\ (resolves prefix perms a).2 = false.
Proof.
  destruct (decide (Forall (fun a => (resolves prefix perms a).2 = true)
                           actions)) as [Hf|Hf].
  - left. by apply Forall_forall.
  - right. apply not_Forall_Exists in Hf; [|apply _].
    apply Exists_exists in Hf as (a & Hin & Hn). exists a.
    split; [done|]. by apply not_true_is_false.
Qed.

Lemma Filter_rejected user sqlID prefix actions :
  sqlID ∉ acceptList \/ orgPermissions user = None ->
  Filter user sqlID prefix actions
    = (denyQuery,
       Some (if bool_decide (sqlID ∉ acceptList)
             then "sqlID is not in the accept list"
             else "missing permissions")).
Proof.
  intros Hrej. unfold AccessControl.Filter.
  case_bool_decide as Hacc; [done|].
  destruct Hrej as [?| ->]; done.
Qed.

Lemma Filter_Args_accepted user sqlID prefix actions id :
  id ∈ Args (Filter user sqlID prefix actions).1 ->
  sqlID ∈ acceptList /\ exists perms, orgPermissions user = Some perms.
Proof.
  intros Hin.
  destruct (decide (sqlID ∈ acceptList)) as [Hacc|Hacc];
    [destruct (orgPermissions user) as [perms|] eqn:Hperms|].
  - eauto.
  - rewrite Filter_rejected in Hin by (by right). by apply elem_of_nil in Hin.
  - rewrite Filter_rejected in Hin by (by left). by apply elem_of_nil in Hin.
Qed.

(** The three results of an accepted call. *)
Lemma Filter_cases user sqlID prefix actions perms :
  sqlID ∈ acceptList ->
  orgPermissions user = Some perms ->
  (all_wildcarded prefix perms actions
   /\ Filter user sqlID prefix actions = (allowAllQuery, None))
  \/ (~ all_wildcarded prefix perms actions
      /\ Filter user sqlID prefix actions = (denyQuery, None))
  \/ (~ all_wildcarded prefix perms actions
      /\ exists ids, ids <> []
           /\ Filter user sqlID prefix actions
              = (mkSQLFilter (inQuery sqlID (length ids)) ids, None)).
Proof.
  intros Hacc Hperms. rewrite (Filter_accepted _ _ _ _ _ _ _ _ Hacc Hperms).
  destruct (Filter_loop prefix perms actions 0 ∅) as [[wildcards result]|]
    eqn:Hloop.
  - destruct (Filter_loop_Some _ _ _ _ _ _ Hloop) as (_ & Hall & _).
    destruct (wildcards =? length actions)%nat eqn:Hw.
    + left. apply Nat.eqb_eq in Hw. split; [by apply Hall|done].
    + right. apply Nat.eqb_neq in Hw.
      assert (Hnot : ~ all_wildcarded prefix perms actions)
        by (intros H; by apply Hw, Hall).
      cbn zeta. destruct (length _ =? 0)%nat eqn:Hlen; [by left|right].
      split; [done|]. eexists. split; [|done].
      intros Hnil. by rewrite Hnil in Hlen.
  - right. left. split; [|done].
    apply Filter_loop_None in Hloop as (a & Hin & Hw & _).
    intros Hall. rewrite (Hall a Hin) in Hw. done.
Qed.

Lemma inQuery_not_allowAll sqlID (ids : list iface) :
  ids <> [] -> mkSQLFilter (inQuery sqlID (length ids)) ids <> allowAllQuery.
Proof. intros Hne [= _ Hids]. done. Qed.

(** When two action lists agree on being all wildcarded and on the
    identifiers that every action grants, [Filter] gives the same result
    for them, up to the order of the arguments. *)
Lemma Filter_outcome_determined user sqlID prefix perms actions1 actions2 :
  sqlID ∈ acceptList ->
  orgPermissions user = Some perms ->
  (all_wildcarded prefix perms actions1
   <-> all_wildcarded prefix perms actions2) ->
  (forall id, (forall a, a ∈ actions1 -> grants prefix perms a id)
              <-> (forall a, a ∈ actions2 -> grants prefix perms a id)) ->
  same_outcome (Filter user sqlID prefix actions1)
               (Filter user sqlID prefix actions2).
Proof.
  intros Hacc Hperms Hwild Hgr.
  destruct (Filter_Args acceptList WildcardsFromPrefix rangeMap rangeMap_perm
              user sqlID prefix actions1 perms Hacc Hperms) as (Herr1 & Hnd1 & Hin1 & _).
  destruct (Filter_Args acceptList WildcardsFromPrefix rangeMap rangeMap_perm
              user sqlID prefix actions2 perms Hacc Hperms) as (Herr2 & Hnd2 & Hin2 & _).
  assert (Hsome : (exists a, a ∈ actions1 /\ (resolves prefix perms a).2 = false)
                  <-> exists a, a ∈ actions2
                        /\ (resolves prefix perms a).2 = false).
  { split; intros (a & Hin & Hf).
    - destruct (all_wildcarded_dec prefix perms actions2) as [Hall|?]; [|done].
      rewrite (proj2 Hwild Hall a Hin) in Hf. done.
    - destruct (all_wildcarded_dec prefix perms actions1) as [Hall|?]; [|done].
      rewrite (proj1 Hwild Hall a Hin) in Hf. done. }
  assert (Hperm : Args (Filter user sqlID prefix actions1).1
                  ≡ₚ Args (Filter user sqlID prefix actions2).1).
  { apply NoDup_Permutation; [done..|]. intros id.
    rewrite Hin1, Hin2, Hsome, (Hgr id). done. }
  unfold same_outcome. split; [congruence|]. split; [|done].
  destruct (Filter_cases user sqlID prefix actions1 perms Hacc Hperms)
    as [[Hw1 E1]|[[Hw1 E1]|(Hw1 & ids1 & Hne1 & E1)]];
  destruct (Filter_cases user sqlID prefix actions2 perms Hacc Hperms)
    as [[Hw2 E2]|[[Hw2 E2]|(Hw2 & ids2 & Hne2 & E2)]];
  rewrite E1, E2 in *; cbn [fst snd Where Args] in *;
    try done; try tauto.
  - apply Permutation_nil_l in Hperm. done.
  - apply Permutation_nil_r in Hperm. done.
  - by rewrite (Permutation_length Hperm).
Qed.

(** X6: [Filter] fails exactly when the column is not accept-listed (its
    first test) or, for an accept-listed column, when the user has no
    permission map for their organization; every other call returns a
    nil error, and a failing call returns the deny-all filter. *)
Theorem Filter_error user sqlID prefix actions :
  ((Filter user sqlID prefix actions).2
     = Some "sqlID is not in the accept list" <-> sqlID ∉ acceptList)
  /\ ((Filter user sqlID prefix actions).2 = Some "missing permissions"
      <-> sqlID ∈ acceptList /\ orgPermissions user = None)
  /\ ((Filter user sqlID prefix actions).2 = None
      <-> sqlID ∈ acceptList /\ orgPermissions user <> None)
  /\ ((Filter user sqlID prefix actions).2 <> None ->
      (Filter user sqlID prefix actions).1 = denyQuery).
Proof.
  destruct (decide (sqlID ∈ acceptList)) as [Hacc|Hacc];
    [destruct (orgPermissions user) as [perms|] eqn:Hperms|].
  - destruct (Filter_cases user sqlID prefix actions perms Hacc Hperms)
      as [[_ ->]|[[_ ->]|(_ & ids & _ & ->)]]; cbn [fst snd];
      intuition congruence.
  - rewrite Filter_rejected by (by right).
    rewrite bool_decide_eq_false_2 by (intros H; by apply H).
    cbn [fst snd]. intuition congruence.
  - rewrite Filter_rejected by (by left).
    rewrite bool_decide_eq_true_2 by done.
    cbn [fst snd]. intuition congruence.
Qed.

(** X7: for every call, the filter is the deny-all constant, the
    allow-all constant, or an IN-list over the column with at least one
    argument; the clause has one placeholder for each bound argument,
    besides the ['?'] of the column name in an IN-list, so exactly one
    for each when the column name holds no ['?']. *)
Theorem Filter_placeholders user sqlID prefix actions :
  ((Filter user sqlID prefix actions).1 = denyQuery
   \/ (Filter user sqlID prefix actions).1 = allowAllQuery
   \/ exists ids, ids <> []
        /\ (Filter user sqlID prefix actions).1
           = mkSQLFilter
               (" " +:+ sqlID +:+ " IN (?"
                +:+ Repeat ",?" (length ids - 1) +:+ ")") ids)
  /\ count_byte "?" (Where (Filter user sqlID prefix actions).1)
     = (length (Args (Filter user sqlID prefix actions).1)
        + if decide (Args (Filter user sqlID prefix actions).1 = [])
          then 0 else count_byte "?" sqlID)%nat
  /\ (count_byte "?" sqlID = 0%nat ->
      count_byte "?" (Where (Filter user sqlID prefix actions).1)
      = length (Args (Filter user sqlID prefix actions).1)).
Proof.
  assert (Hshape :
    (Filter user sqlID prefix actions).1 = denyQuery
    \/ (Filter user sqlID prefix actions).1 = allowAllQuery
    \/ exists ids, ids <> []
         /\ (Filter user sqlID prefix actions).1
            = mkSQLFilter (inQuery sqlID (length ids)) ids).
  { destruct (decide (sqlID ∈ acceptList)) as [Hacc|Hacc];
      [destruct (orgPermissions user) as [perms|] eqn:Hperms|].
    - destruct (Filter_cases user sqlID prefix actions perms Hacc Hperms)
        as [[_ ->]|[[_ ->]|(_ & ids & Hne & ->)]]; eauto.
    - rewrite Filter_rejected by (by right). by left.
    - rewrite Filter_rejected by (by left). by left. }
  split; [exact Hshape|].
  assert (Hcount :
    count_byte "?" (Where (Filter user sqlID prefix actions).1)
    = (length (Args (Filter user sqlID prefix actions).1)
       + if decide (Args (Filter user sqlID prefix actions).1 = [])
         then 0 else count_byte "?" sqlID)%nat).
  { destruct Hshape as [->|[->|(ids & Hne & ->)]]; [done..|].
    cbn [Where Args]. rewrite decide_False by done. unfold inQuery.
    rewrite !count_byte_app, count_byte_Repeat.
    destruct ids; [done|]. cbn. lia. }
  split; [exact Hcount|].
  intros Hcol. rewrite Hcount. case_decide; lia.
Qed.

(** X8: the allow-all filter is returned exactly for an accept-listed
    column, a user with permissions for their organization, and actions
    that each have a scope equal to a wildcard of the prefix. *)
Theorem Filter_allow_all user sqlID prefix actions :
  (Filter user sqlID prefix actions).1 = allowAllQuery
  <-> sqlID ∈ acceptList
      /\ exists perms, orgPermissions user = Some perms
           /\ forall a, a ∈ actions ->
                exists scope, scope ∈ scopesOf perms a
                  /\ scope ∈ WildcardsFromPrefix prefix.
Proof.
  assert (Hwild : forall perms,
            all_wildcarded prefix perms actions
            <-> forall a, a ∈ actions ->
                  exists scope, scope ∈ scopesOf perms a
                    /\ scope ∈ WildcardsFromPrefix prefix).
  { intros perms. split; intros H a Hin.
    - specialize (H a Hin).
      apply ParseScopes_wildcard in H as (scope & ? & ?%Contains_true).
      eauto.
    - apply ParseScopes_wildcard. destruct (H a Hin) as (scope & ? & ?).
      exists scope. by rewrite Contains_true. }
  destruct (decide (sqlID ∈ acceptList)) as [Hacc|Hacc];
    [destruct (orgPermissions user) as [perms|] eqn:Hperms|].
  - destruct (Filter_cases user sqlID prefix actions perms Hacc Hperms)
      as [[Hall ->]|[[Hnot ->]|(Hnot & ids & Hne & ->)]]; cbn [fst].
    + split; [intros _|done]. split; [done|]. exists perms.
      split; [done|]. by apply Hwild.
    + split; [done|]. intros (_ & perms' & [= <-] & H).
      destruct Hnot. by apply Hwild.
    + split; [by intros ?%inQuery_not_allowAll|].
      intros (_ & perms' & [= <-] & H). destruct Hnot. by apply Hwild.
  - rewrite Filter_rejected by (by right). cbn [fst].
    split; [done|]. by intros (_ & perms & ? & _).
  - rewrite Filter_rejected by (by left). cbn [fst].
    split; [done|]. by intros [? _].
Qed.

Lemma same_outcome_refl (r : SQLFilter * error) : same_outcome r r.
Proof. by repeat split. Qed.

(** X9: [Filter] depends on the set of requested actions only: two
    action lists with the same members (in another order, or with
    repetitions) give the same error, the same clause and the same
    arguments up to their order. *)
Theorem Filter_same_actions user sqlID prefix actions1 actions2 :
  (forall a, a ∈ actions1 <-> a ∈ actions2) ->
  same_outcome (Filter user sqlID prefix actions1)
               (Filter user sqlID prefix actions2).
Proof.
  intros Hsame.
  destruct (decide (sqlID ∈ acceptList)) as [Hacc|Hacc];
    [destruct (orgPermissions user) as [perms|] eqn:Hperms|].
  - apply (Filter_outcome_determined user sqlID prefix perms); [done..| |].
    + split; intros H a Hin; by apply H, Hsame.
    + intros id. split; intros H a Hin; by apply H, Hsame.
  - rewrite !Filter_rejected by (by right). apply same_outcome_refl.
  - rewrite !Filter_rejected by (by left). apply same_outcome_refl.
Qed.

(** X10: a wildcarded action is neutral: adding it to the requested
    actions changes neither the error, nor the clause, nor the
    arguments (up to their order). *)
Theorem Filter_wildcard_neutral user sqlID prefix perms a actions :
  orgPermissions user = Some perms ->
  (ParseScopes prefix (scopesOf perms a)).2 = true ->
  same_outcome (Filter user sqlID prefix (a :: actions))
               (Filter user sqlID prefix actions).
Proof.
  intros Hperms Hw.
  destruct (decide (sqlID ∈ acceptList)) as [Hacc|Hacc].
  - apply (Filter_outcome_determined user sqlID prefix perms); [done..| |].
    + split; intros H a' Hin.
      * apply H. by right.
      * apply elem_of_cons in Hin as [->|Hin]; [done|by apply H].
    + intros id. split; intros H a' Hin.
      * apply H. by right.
      * apply elem_of_cons in Hin as [->|Hin]; [by left|by apply H].
  - rewrite !Filter_rejected by (by left). apply same_outcome_refl.
Qed.

Lemma Filter_allowAll_inv user sqlID prefix actions :
  (Filter user sqlID prefix actions).1 = allowAllQuery ->
  sqlID ∈ acceptList
  /\ exists perms, orgPermissions user = Some perms
       /\ all_wildcarded prefix perms actions.
Proof.
  intros Hallow.
  destruct (decide (sqlID ∈ acceptList)) as [Hacc|Hacc];
    [destruct (orgPermissions user) as [perms|] eqn:Hperms|].
  - split; [done|]. exists perms. split; [done|].
    destruct (Filter_cases user sqlID prefix actions perms Hacc Hperms)
      as [[Hall _]|[[_ E]|(_ & ids & Hne & E)]]; [done|..];
      rewrite E in Hallow; cbn [fst] in Hallow; [done|].
    by apply inQuery_not_allowAll in Hallow.
  - rewrite Filter_rejected in Hallow by (by right). done.
  - rewrite Filter_rejected in Hallow by (by left). done.
Qed.

(** X11: requesting more actions never widens a restricted filter: when
    the filter of [actions] is not allow-all, the filter of a list that
    contains [actions] is not allow-all either, and every identifier it
    binds is bound for [actions] too. *)
Theorem Filter_more_actions user sqlID prefix actions actions' :
  (forall a, a ∈ actions -> a ∈ actions') ->
  (Filter user sqlID prefix actions).1 <> allowAllQuery ->
  (Filter user sqlID prefix actions').1 <> allowAllQuery
  /\ forall id,
       id ∈ Args (Filter user sqlID prefix actions').1 ->
       id ∈ Args (Filter user sqlID prefix actions).1.
Proof.
  intros Hsub Hnot. split.
  - intros (Hacc & perms & Hperms & Hall)%Filter_allowAll_inv.
    destruct (Filter_cases user sqlID prefix actions perms Hacc Hperms)
      as [[_ E]|[[Hn _]|[Hn _]]].
    + rewrite E in Hnot. done.
    + apply Hn. intros a Ha. by apply Hall, Hsub.
    + apply Hn. intros a Ha. by apply Hall, Hsub.
  - intros id Hin.
    destruct (Filter_Args_accepted _ _ _ _ _ Hin) as (Hacc & perms & Hperms).
    destruct (Filter_Args acceptList WildcardsFromPrefix rangeMap
                rangeMap_perm user sqlID prefix actions' perms Hacc Hperms)
      as (_ & _ & Hin' & _).
    destruct (Filter_Args acceptList WildcardsFromPrefix rangeMap
                rangeMap_perm user sqlID prefix actions perms Hacc Hperms)
      as (_ & _ & Hin0 & _).
    apply Hin0. apply Hin' in Hin as [_ Hgr]. split.
    + destruct (all_wildcarded_dec prefix perms actions) as [Hall|?]; [|done].
      destruct (Filter_cases user sqlID prefix actions perms Hacc Hperms)
        as [[_ E]|[[Hn _]|[Hn _]]]; [|done..].
      rewrite E in Hnot. done.
    + intros a Ha. by apply Hgr, Hsub.
Qed.

(** X12: an identifier is bound only on the word of the user's scopes:
    for every requested action the user holds either a scope equal to a
    wildcard of the prefix, or a scope that extends the prefix and whose
    attribute parses to that identifier. *)
Theorem Filter_Args_from_scopes user sqlID prefix actions id :
  id ∈ Args (Filter user sqlID prefix actions).1 ->
  exists perms,
    orgPermissions user = Some perms
    /\ forall a, a ∈ actions ->
         (exists scope, scope ∈ scopesOf perms a
            /\ scope ∈ WildcardsFromPrefix prefix)
         \/ (exists rest, prefix +:+ rest ∈ scopesOf perms a
               /\ attributeParser prefix (prefix +:+ rest) = Some id).
Proof.
  intros Hin.
  destruct (Filter_Args_accepted _ _ _ _ _ Hin) as (Hacc & perms & Hperms).
  exists perms. split; [done|]. intros a Ha.
  apply (Filter_Args acceptList WildcardsFromPrefix rangeMap rangeMap_perm
           user sqlID prefix actions perms Hacc Hperms) in Hin as [_ Hgr].
  destruct (Hgr a Ha) as [Hw|Hid].
  - left. apply ParseScopes_wildcard in Hw as (scope & ? & ?%Contains_true).
    eauto.
  - right. apply ParseScopes_elem_of in Hid
      as (_ & scope & ? & (rest & ->)%HasPrefix_true & ?). eauto.
Qed.

(** X13: no identifier is bound twice, and the bound arguments have one
    type, selected by the prefix: 64-bit integers within range when the
    prefix ends in [":id:"], otherwise strings that hold no colon. *)
Theorem Filter_Args_typed user sqlID prefix actions :
  NoDup (Args (Filter user sqlID prefix actions).1)
  /\ forall id, id ∈ Args (Filter user sqlID prefix actions).1 ->
       if HasSuffix prefix ":id:"
       then exists n, id = Int64 n /\ int64_range n
       else exists attr, id = Str attr /\ ~ occurs ":" attr.
Proof.
  split.
  - destruct (decide (sqlID ∈ acceptList)) as [Hacc|Hacc];
      [destruct (orgPermissions user) as [perms|] eqn:Hperms|].
    + apply (Filter_Args acceptList WildcardsFromPrefix rangeMap
               rangeMap_perm user sqlID prefix actions perms Hacc Hperms).
    + rewrite Filter_rejected by (by right). constructor.
    + rewrite Filter_rejected by (by left). constructor.
  - intros id Hin.
    destruct (Filter_Args_accepted _ _ _ _ _ Hin) as (Hacc & perms & Hperms).
    apply (Filter_Args acceptList WildcardsFromPrefix rangeMap rangeMap_perm
             user sqlID prefix actions perms Hacc Hperms) in Hin
      as [(a & Ha & Hw) Hgr].
    destruct (Hgr a Ha) as [Hw'|Hid]; [congruence|].
    apply ParseScopes_elem_of in Hid as (_ & scope & _ & _ & Hparse).
    by apply attributeParser_typed in Hparse.
Qed.

(** X14: an action for which the user holds no scope under the prefix
    (no wildcard of the prefix and no scope that extends it, as for an
    action that is missing from the permission map) makes the result the
    deny-all filter with a nil error. *)
Theorem Filter_no_scope_under_prefix user sqlID prefix actions perms a :
  sqlID ∈ acceptList ->
  orgPermissions user = Some perms ->
  a ∈ actions ->
  (forall scope, scope ∈ scopesOf perms a ->
     (scope ∉ WildcardsFromPrefix prefix)
     /\ HasPrefix scope prefix = false) ->
  Filter user sqlID prefix actions = (denyQuery, None).
Proof.
  intros Hacc Hperms Ha Hnone.
  rewrite (Filter_accepted _ _ _ _ _ _ _ _ Hacc Hperms).
  assert (Hloop : Filter_loop prefix perms actions 0 ∅ = None).
  { apply Filter_loop_None. exists a. split; [done|]. split.
    - apply ParseScopes_no_wildcard. intros scope Hin. by apply Hnone.
    - apply leibniz_equiv, elem_of_equiv_empty. intros id.
      intros (_ & scope & Hin & Hp & _)%ParseScopes_elem_of.
      destruct (Hnone scope Hin) as [_ Hf]. congruence. }
  by rewrite Hloop.
Qed.

(** X19: for a single action that is not wildcarded and has at least
    one identifier, the filter binds exactly the identifiers of that
    action's scopes, each once, behind one placeholder each. *)
Theorem Filter_single_action user sqlID prefix perms a (ids : gset iface) :
  sqlID ∈ acceptList ->
  orgPermissions user = Some perms ->
  ParseScopes prefix (scopesOf perms a) = (ids, false) ->
  ids <> ∅ ->
  (Filter user sqlID prefix [a]).2 = None
  /\ Where (Filter user sqlID prefix [a]).1 = inQuery sqlID (size ids)
  /\ Args (Filter user sqlID prefix [a]).1 ≡ₚ elements ids.
Proof.
  intros Hacc Hperms Hres Hne.
  apply (Filter_IN_list acceptList WildcardsFromPrefix rangeMap rangeMap_perm
           user sqlID prefix [a] perms (elements ids) Hacc Hperms).
  - apply NoDup_elements.
  - intros Hnil. apply Hne. by apply leibniz_equiv, elements_empty_iff.
  - exists a. unfold resolves. rewrite Hres. split; [by left|done].
  - intros id. rewrite elem_of_elements. unfold grants, resolves. split.
    + intros Hid a' ->%list_elem_of_singleton. rewrite Hres. by right.
    + intros Hg. destruct (Hg a) as [Hw|Hid]; [by left|..];
        rewrite Hres in *; done.
Qed.

End FilterOutcomes.

(** ** The join of the role channels *)

Lemma length_pos_eqb (s : string) :
  (0 <? String.length s)%nat = negb (String.eqb s "").
Proof. by destruct s. Qed.

Lemma length_append (s1 s2 : string) :
  String.length (s1 +:+ s2) = (String.length s1 + String.length s2)%nat.
Proof.
  induction s1 as [|c s1 IH]; [done|].
  change (String c s1 +:+ s2) with (String c (s1 +:+ s2)).
  cbn [String.length]. by rewrite IH.
Qed.

Lemma orClause_joinOr (builder sql : string) (params args : list iface) :
  (sql = "" -> args = []) ->
  orClause (builder, params) (sql, args) = (joinOr builder sql, params ++ args).
Proof.
  intros Hempty. unfold orClause, joinOr. rewrite length_pos_eqb.
  destruct (String.eqb_spec sql "") as [Hs|Hs].
  - by rewrite (Hempty Hs), app_nil_r.
  - destruct (String.eqb_spec builder "") as [->|Hb]; cbn [negb]; [done|].
    by rewrite append_assoc.
Qed.

Lemma joinOr_empty (sql1 sql2 : string) :
  joinOr sql1 sql2 = "" <-> sql1 = "" /\ sql2 = "".
Proof.
  unfold joinOr.
  destruct (String.eqb_spec sql2 "") as [->|H2]; [tauto|].
  destruct (String.eqb_spec sql1 "") as [->|H1]; [tauto|].
  split; [|tauto]. destruct sql1; [done|discriminate].
Qed.

Lemma joinOr_concat (sql1 sql2 sql3 : string) :
  joinOr (joinOr sql1 sql2) sql3
    = String.concat " OR "
        (List.filter (fun sql => negb (String.eqb sql ""))
                     [sql1; sql2; sql3]).
Proof.
  destruct sql1 as [|c1 sql1], sql2 as [|c2 sql2], sql3 as [|c3 sql3];
    unfold joinOr;
    repeat (rewrite ?eqb_append_cons_empty;
            cbn [String.eqb negb List.filter String.concat]);
    rewrite ?append_assoc, ?append_empty_r; reflexivity.
Qed.

Lemma count_byte_joinOr (sql1 sql2 : string) :
  count_byte "?" (joinOr sql1 sql2)
    = (count_byte "?" sql1 + count_byte "?" sql2)%nat.
Proof.
  unfold joinOr.
  destruct (String.eqb_spec sql2 "") as [->|_]; [cbn; lia|].
  destruct (String.eqb_spec sql1 "") as [->|_]; [done|].
  rewrite !count_byte_app. cbn. lia.
Qed.

Section RolesJoin.

Variable GlobalOrgID : Z.

Local Abbreviation userRolesFilter := (userRolesFilter GlobalOrgID).
Local Abbreviation UserRolesFilterCondition :=
  (UserRolesFilterCondition GlobalOrgID).
Local Abbreviation builtinRolesFilter := (builtinRolesFilter GlobalOrgID).
Local Abbreviation BuiltinRolesFilterCondition :=
  (BuiltinRolesFilterCondition GlobalOrgID).
Local Abbreviation UserRolesFilter := (UserRolesFilter GlobalOrgID).

Implicit Types (orgID userID : Z) (teamIDs : list Z) (roles : list string).

Lemma userRolesFilter_args orgID userID :
  (userRolesFilter orgID userID).2 = (UserRolesFilterCondition orgID userID).2
  /\ ((userRolesFilter orgID userID).1 = "" ->
      (userRolesFilter orgID userID).2 = []).
Proof.
  unfold AccessControl.userRolesFilter, AccessControl.UserRolesFilterCondition.
  destruct (userID =? 0)%Z; [done|]. cbn [String.eqb fst snd]. split; [done|].
  unfold newline. discriminate.
Qed.

(** The builder of [UserRolesFilter] joins the three clauses. *)
Lemma UserRolesFilter_joinOr orgID userID teamIDs roles :
  UserRolesFilter orgID userID teamIDs roles
    = ("INNER JOIN ("
       +:+ joinOr (joinOr (userRolesFilter orgID userID).1
                          (teamRolesFilter orgID teamIDs).1)
                  (builtinRolesFilter orgID roles).1
       +:+ ") as all_role ON role.id = all_role.role_id",
       (UserRolesFilterCondition orgID userID).2
       ++ (TeamRolesFilderCondition orgID teamIDs).2
       ++ (BuiltinRolesFilterCondition orgID roles).2).
Proof.
  unfold AccessControl.UserRolesFilter.
  destruct (userRolesFilter_args orgID userID) as [Hu Hu0].
  destruct (teamRolesFilter_args orgID teamIDs) as [Ht Ht0].
  destruct (builtinRolesFilter_args GlobalOrgID orgID roles) as [Hb Hb0].
  rewrite <- Hu, <- Ht, <- Hb.
  destruct (userRolesFilter orgID userID) as [usql uargs].
  destruct (teamRolesFilter orgID teamIDs) as [tsql targs].
  destruct (builtinRolesFilter orgID roles) as [bsql bargs].
  cbn [fst snd] in *.
  assert (Huser : (if String.eqb usql "" then ("", [])
                   else ("" +:+ usql, [] ++ uargs)) = (usql, uargs)).
  { destruct (String.eqb_spec usql "") as [->|]; [by rewrite Hu0|done]. }
  rewrite Huser, !orClause_joinOr by done. cbn [fst snd].
  by rewrite <- app_assoc.
Qed.

(** The text of each clause: it depends on whether the user ID is zero
    and on the number of teams and of roles, nothing else. *)
Lemma userRolesFilter_sql orgID userID :
  (userRolesFilter orgID userID).1
    = if (userID =? 0)%Z then ""
      else newline +:+ tab +:+ "SELECT ur.role_id" +:+ newline +:+ tab
           +:+ "FROM user_role AS ur" +:+ newline +:+ tab
           +:+ "WHERE ur.user_id = ? AND (ur.org_id = ? OR ur.org_id = 0)"
           +:+ newline +:+ tab.
Proof.
  unfold AccessControl.userRolesFilter, AccessControl.UserRolesFilterCondition.
  by destruct (userID =? 0)%Z.
Qed.

Lemma teamRolesFilter_sql orgID teamIDs :
  (teamRolesFilter orgID teamIDs).1
    = if (length teamIDs =? 0)%nat then ""
      else newline +:+ tab +:+ "SELECT tr.role_id FROM team_role as tr"
           +:+ newline +:+ tab +:+ "WHERE "
           +:+ ("tr.team_id IN(?" +:+ Repeat ", ?" (length teamIDs - 1)
                +:+ ") AND tr.org_id = ?")
           +:+ newline +:+ tab.
Proof.
  unfold teamRolesFilter, TeamRolesFilderCondition.
  destruct (length teamIDs =? 0)%nat; [done|].
  by rewrite eqb_append_cons_empty.
Qed.

Lemma builtinRolesFilter_sql orgID roles :
  (builtinRolesFilter orgID roles).1
    = if (length roles =? 0)%nat then ""
      else newline +:+ tab +:+ "SELECT br.role_id FROM builtin_role AS br"
           +:+ newline +:+ tab +:+ "WHERE "
           +:+ ("br.role IN (?" +:+ Repeat ", ?" (length roles - 1)
                +:+ ") AND (br.org_id = ? OR br.org_id = ?)")
           +:+ newline +:+ tab.
Proof.
  unfold AccessControl.builtinRolesFilter,
    AccessControl.BuiltinRolesFilterCondition.
  destruct (length roles =? 0)%nat; [done|].
  by rewrite eqb_append_cons_empty.
Qed.

(** X15: [UserRolesFilter] wraps, in one inner join, the non-empty
    clauses of the three channels joined by [" OR "], in the order user,
    team, built-in, and binds the arguments of the three conditions in
    that order. *)
Theorem UserRolesFilter_join orgID userID teamIDs roles :
  UserRolesFilter orgID userID teamIDs roles
    = ("INNER JOIN ("
       +:+ String.concat " OR "
             (List.filter (fun sql => negb (String.eqb sql ""))
                [(userRolesFilter orgID userID).1;
                 (teamRolesFilter orgID teamIDs).1;
                 (builtinRolesFilter orgID roles).1])
       +:+ ") as all_role ON role.id = all_role.role_id",
       (UserRolesFilterCondition orgID userID).2
       ++ (TeamRolesFilderCondition orgID teamIDs).2
       ++ (BuiltinRolesFilterCondition orgID roles).2).
Proof. by rewrite UserRolesFilter_joinOr, joinOr_concat. Qed.

(** X16: the query of [UserRolesFilter] has one placeholder for each
    bound argument when the user ID is zero; for a real user it binds
    one argument more than it has placeholders, because the user
    condition has two placeholders and three arguments. *)
Theorem UserRolesFilter_placeholders orgID userID teamIDs roles :
  (count_byte "?" (UserRolesFilter orgID userID teamIDs roles).1
   + (if (userID =? 0)%Z then 0 else 1))%nat
  = length (UserRolesFilter orgID userID teamIDs roles).2.
Proof.
  rewrite UserRolesFilter_joinOr. cbn [fst snd].
  rewrite !count_byte_app, !count_byte_joinOr, !length_app.
  rewrite userRolesFilter_sql, teamRolesFilter_sql, builtinRolesFilter_sql.
  unfold AccessControl.UserRolesFilterCondition, TeamRolesFilderCondition,
    AccessControl.BuiltinRolesFilterCondition.
  destruct (userID =? 0)%Z, teamIDs as [|t teamIDs], roles as [|r roles];
    cbn [length Nat.eqb fst snd];
    rewrite ?count_byte_app, ?count_byte_Repeat, ?length_app, ?length_fmap;
    cbn; lia.
Qed.

(** X17: no value reaches the text of the query: it is the same for two
    calls that agree on whether the user ID is zero, on the number of
    teams and on the number of roles, whatever the organization, the
    team IDs and the role names are. *)
Theorem UserRolesFilter_text_independent orgID userID teamIDs roles
    orgID' userID' teamIDs' roles' :
  (userID = 0%Z <-> userID' = 0%Z) ->
  length teamIDs = length teamIDs' ->
  length roles = length roles' ->
  (UserRolesFilter orgID userID teamIDs roles).1
    = (UserRolesFilter orgID' userID' teamIDs' roles').1.
Proof.
  intros Hu Ht Hr. rewrite !UserRolesFilter_joinOr. cbn [fst].
  rewrite !userRolesFilter_sql, !teamRolesFilter_sql, !builtinRolesFilter_sql.
  rewrite Ht, Hr.
  assert ((userID =? 0)%Z = (userID' =? 0)%Z) as ->; [|done].
  apply eq_true_iff_eq. by rewrite !Z.eqb_eq.
Qed.

(** X18: the subquery is empty, [INNER JOIN ()], exactly when no channel
    applies: the user ID is zero and there is neither a team nor a
    built-in role; no argument is bound then. *)
Theorem UserRolesFilter_empty_join orgID userID teamIDs roles :
  ((UserRolesFilter orgID userID teamIDs roles).1
     = "INNER JOIN () as all_role ON role.id = all_role.role_id"
   <-> userID = 0%Z /\ teamIDs = [] /\ roles = [])
  /\ (userID = 0%Z -> teamIDs = [] -> roles = [] ->
      (UserRolesFilter orgID userID teamIDs roles).2 = []).
Proof.
  split; [|by intros -> -> ->].
  split; [|by intros (-> & -> & ->)].
  rewrite UserRolesFilter_joinOr. cbn [fst].
  set (join := joinOr _ _).
  intros Heq.
  assert (Hjoin : join = "").
  { apply (inj (String.append "INNER JOIN (")) in Heq.
    apply (f_equal String.length) in Heq. rewrite length_append in Heq.
    destruct join; [done|]. cbn in Heq. lia. }
  subst join.
  apply joinOr_empty in Hjoin as [[Hu Ht]%joinOr_empty Hb].
  rewrite userRolesFilter_sql in Hu. rewrite teamRolesFilter_sql in Ht.
  rewrite builtinRolesFilter_sql in Hb.
  destruct (userID =? 0)%Z eqn:Hz; [|discriminate Hu].
  apply Z.eqb_eq in Hz.
  destruct teamIDs; [|discriminate Ht]. destruct roles; [|discriminate Hb].
  done.
Qed.

End RolesJoin.

(** * The further properties on sample callers *)

Lemma Filter_placeholders_witness :
  count_byte "?" "t.id" = 0%nat
  /\ count_byte "?"
       (Where (stockFilter (Some (userWithPermissions teamPermissions))
                 "t.id" "teams:id:" ["teams:read"; "teams:write"]).1)
     = length
         (Args (stockFilter (Some (userWithPermissions teamPermissions))
                  "t.id" "teams:id:" ["teams:read"; "teams:write"]).1).
Proof.
  split; [reflexivity|].
  exact (proj2 (proj2 (Filter_placeholders sqlIDAcceptList
                         specWildcardsFromPrefix map_to_list
                         (Some (userWithPermissions teamPermissions))
                         "t.id" "teams:id:" ["teams:read"; "teams:write"]))
           eq_refl).
Defined.

Lemma Filter_same_actions_witness :
  (forall a, a ∈ ["teams:read"; "teams:write"; "teams:read"]
             <-> a ∈ ["teams:write"; "teams:read"])
  /\ same_outcome
       (stockFilter (Some (userWithPermissions teamPermissions)) "t.id"
          "teams:id:" ["teams:read"; "teams:write"; "teams:read"])
       (stockFilter (Some (userWithPermissions teamPermissions)) "t.id"
          "teams:id:" ["teams:write"; "teams:read"]).
Proof.
  assert (Hsame : forall a, a ∈ ["teams:read"; "teams:write"; "teams:read"]
                            <-> a ∈ ["teams:write"; "teams:read"]).
  { intros a. rewrite !elem_of_cons, !elem_of_nil. tauto. }
  split; [exact Hsame|].
  exact (Filter_same_actions sqlIDAcceptList specWildcardsFromPrefix
           map_to_list map_to_list_perm
           (Some (userWithPermissions teamPermissions)) "t.id" "teams:id:"
           _ _ Hsame).
Defined.

Lemma Filter_wildcard_neutral_witness :
  orgPermissions (Some (userWithPermissions teamPermissions))
    = Some teamPermissions
  /\ (ParseScopes specWildcardsFromPrefix "teams:id:"
        (scopesOf teamPermissions "teams:create")).2 = true
  /\ same_outcome
       (stockFilter (Some (userWithPermissions teamPermissions)) "t.id"
          "teams:id:" ["teams:create"; "teams:read"])
       (stockFilter (Some (userWithPermissions teamPermissions)) "t.id"
          "teams:id:" ["teams:read"]).
Proof.
  split; [reflexivity|]. split; [reflexivity|].
  exact (Filter_wildcard_neutral sqlIDAcceptList specWildcardsFromPrefix
           map_to_list map_to_list_perm
           (Some (userWithPermissions teamPermissions)) "t.id" "teams:id:"
           teamPermissions "teams:create" ["teams:read"] eq_refl eq_refl).
Defined.

Lemma Filter_more_actions_witness :
  (forall a, a ∈ ["teams:read"] -> a ∈ ["teams:read"; "teams:write"])
  /\ (stockFilter (Some (userWithPermissions teamPermissions)) "t.id"
        "teams:id:" ["teams:read"]).1 <> allowAllQuery
  /\ (stockFilter (Some (userWithPermissions teamPermissions)) "t.id"
        "teams:id:" ["teams:read"; "teams:write"]).1 <> allowAllQuery
  /\ forall id,
       id ∈ Args (stockFilter (Some (userWithPermissions teamPermissions))
                    "t.id" "teams:id:" ["teams:read"; "teams:write"]).1 ->
       id ∈ Args (stockFilter (Some (userWithPermissions teamPermissions))
                    "t.id" "teams:id:" ["teams:read"]).1.
Proof.
  assert (Hsub : forall a, a ∈ ["teams:read"] ->
                           a ∈ ["teams:read"; "teams:write"]).
  { intros a Hin. apply list_elem_of_singleton in Hin as ->. left. }
  assert (Hnot : (stockFilter (Some (userWithPermissions teamPermissions))
                    "t.id" "teams:id:" ["teams:read"]).1 <> allowAllQuery).
  { intros Heq. vm_compute in Heq. discriminate Heq. }
  split; [exact Hsub|]. split; [exact Hnot|].
  exact (Filter_more_actions sqlIDAcceptList specWildcardsFromPrefix
           map_to_list map_to_list_perm
           (Some (userWithPermissions teamPermissions)) "t.id" "teams:id:"
           ["teams:read"] ["teams:read"; "teams:write"] Hsub Hnot).
Defined.

Lemma Filter_Args_from_scopes_witness :
  Int64 2 ∈ Args (stockFilter (Some (userWithPermissions teamPermissions))
                    "t.id" "teams:id:" ["teams:create"; "teams:write"]).1
  /\ exists perms,
       orgPermissions (Some (userWithPermissions teamPermissions)) = Some perms
       /\ forall a, a ∈ ["teams:create"; "teams:write"] ->
            (exists scope, scope ∈ scopesOf perms a
               /\ scope ∈ specWildcardsFromPrefix "teams:id:")
            \/ (exists rest, "teams:id:" +:+ rest ∈ scopesOf perms a
                 /\ attributeParser "teams:id:" ("teams:id:" +:+ rest)
                    = Some (Int64 2)).
Proof.
  assert (Hin : Int64 2
            ∈ Args (stockFilter (Some (userWithPermissions teamPermissions))
                      "t.id" "teams:id:" ["teams:create"; "teams:write"]).1).
  { refine (bool_decide_unpack _ _). vm_compute. exact I. }
  split; [exact Hin|].
  exact (Filter_Args_from_scopes sqlIDAcceptList specWildcardsFromPrefix
           map_to_list map_to_list_perm
           (Some (userWithPermissions teamPermissions)) "t.id" "teams:id:"
           ["teams:create"; "teams:write"] (Int64 2) Hin).
Defined.

Lemma Filter_Args_typed_witness :
  (forall m : gmap iface nat, map_to_list m ≡ₚ map_to_list m)
  /\ NoDup (Args (stockFilter (Some (userWithPermissions teamPermissions))
                    "t.id" "teams:id:" ["teams:read"; "teams:write"]).1).
Proof.
  split; [exact map_to_list_perm|].
  exact (proj1 (Filter_Args_typed sqlIDAcceptList specWildcardsFromPrefix
                  map_to_list map_to_list_perm
                  (Some (userWithPermissions teamPermissions)) "t.id"
                  "teams:id:" ["teams:read"; "teams:write"])).
Defined.

Lemma Filter_no_scope_under_prefix_witness :
  "t.id" ∈ sqlIDAcceptList
  /\ orgPermissions (Some (userWithPermissions teamPermissions))
       = Some teamPermissions
  /\ "teams:archive" ∈ ["teams:read"; "teams:archive"]
  /\ (forall scope, scope ∈ scopesOf teamPermissions "teams:archive" ->
        (scope ∉ specWildcardsFromPrefix "teams:id:")
        /\ HasPrefix scope "teams:id:" = false)
  /\ stockFilter (Some (userWithPermissions teamPermissions)) "t.id"
       "teams:id:" ["teams:read"; "teams:archive"] = (denyQuery, None).
Proof.
  assert (Hin : "teams:archive" ∈ ["teams:read"; "teams:archive"])
    by (right; left).
  assert (Hnone : forall scope,
            scope ∈ scopesOf teamPermissions "teams:archive" ->
            (scope ∉ specWildcardsFromPrefix "teams:id:")
            /\ HasPrefix scope "teams:id:" = false).
  { intros scope Hs. vm_compute in Hs. inversion Hs. }
  split; [exact t_id_accepted|]. split; [reflexivity|].
  split; [exact Hin|]. split; [exact Hnone|].
  exact (Filter_no_scope_under_prefix sqlIDAcceptList specWildcardsFromPrefix
           map_to_list (Some (userWithPermissions teamPermissions)) "t.id"
           "teams:id:" _ teamPermissions "teams:archive"
           t_id_accepted eq_refl Hin Hnone).
Defined.

Lemma UserRolesFilter_text_independent_witness :
  (7%Z = 0%Z <-> 9%Z = 0%Z)
  /\ length [1; 2]%Z = length [30; 40]%Z
  /\ length ["Viewer"] = length ["Editor"]
  /\ (UserRolesFilter 0 1 7 [1; 2]%Z ["Viewer"]).1
     = (UserRolesFilter 0 5 9 [30; 40]%Z ["Editor"]).1.
Proof.
  assert (Hu : 7%Z = 0%Z <-> 9%Z = 0%Z) by (split; discriminate).
  split; [exact Hu|]. split; [reflexivity|]. split; [reflexivity|].
  exact (UserRolesFilter_text_independent 0 1 7 [1; 2]%Z ["Viewer"]
           5 9 [30; 40]%Z ["Editor"] Hu eq_refl eq_refl).
Defined.

Lemma Filter_single_action_witness :
  "t.id" ∈ sqlIDAcceptList
  /\ orgPermissions (Some (userWithPermissions teamReader)) = Some teamReader
  /\ ParseScopes specWildcardsFromPrefix "teams:id:"
       (scopesOf teamReader "teams:read") = ({[Int64 5; Int64 9]}, false)
  /\ ({[Int64 5; Int64 9]} : gset iface) <> ∅
  /\ Args (stockFilter (Some (userWithPermissions teamReader)) "t.id"
             "teams:id:" ["teams:read"]).1
     ≡ₚ elements ({[Int64 5; Int64 9]} : gset iface).
Proof.
  assert (Hres : ParseScopes specWildcardsFromPrefix "teams:id:"
                   (scopesOf teamReader "teams:read")
                 = ({[Int64 5; Int64 9]}, false))
    by (vm_compute; reflexivity).
  assert (Hne : ({[Int64 5; Int64 9]} : gset iface) <> ∅).
  { intros Heq. apply (f_equal size) in Heq. vm_compute in Heq.
    discriminate Heq. }
  split; [exact t_id_accepted|]. split; [reflexivity|].
  split; [exact Hres|]. split; [exact Hne|].
  exact (proj2 (proj2 (Filter_single_action sqlIDAcceptList
                         specWildcardsFromPrefix map_to_list map_to_list_perm
                         (Some (userWithPermissions teamReader)) "t.id"
                         "teams:id:" teamReader "teams:read" _
                         t_id_accepted eq_refl Hres Hne))).
Defined.
